(** * A shallow embedding of [dockerspawner/swarmspawner.py] (SwarmSpawner).

    The Python coroutines of the spawner are modelled in a small exception and
    state monad: the state is the spawner's own attributes together with the
    trace of the engine (docker) calls it has issued; the engine is a record of
    response functions, one per docker-py method the spawner calls. *)

From Stdlib Require Import ZArith List String Ascii Bool Lia Floats.
From Stdlib Require Import Sorted Permutation.
Import ListNotations.
Open Scope string_scope.

Set Warnings "-register-all".

(** ** Python values and exceptions *)

(** The Python values that flow through the spawner: engine responses
    (JSON-like dicts and lists), option values and keyword arguments.
    [PyFuture] is the Future object a call to a [gen.coroutine] function
    returns. *)
Inductive pyval : Type :=
| PyNone
| PyBool (b : bool)
| PyInt (z : Z)
| PyFloat (f : float)
| PyStr (s : string)
| PyList (l : list pyval)
| PyDict (d : list (string * pyval))
| PyFuture.

Inductive exn : Type :=
| APIError (status_code : Z)
| RuntimeError (msg : string)
| KeyError (key : string)
| TypeError
| AttributeError
| ValueError
| OverflowError
| IndexError
| TraitError
| InvalidArgument.

Inductive outcome (A : Type) : Type :=
| Ret (a : A)
| Raise (e : exn).
Arguments Ret {A} a.
Arguments Raise {A} e.

(** Python truthiness. *)
Definition truthy (v : pyval) : bool :=
  match v with
  | PyNone => false
  | PyBool b => b
  | PyInt z => negb (Z.eqb z 0)
  | PyFloat f => negb (PrimFloat.eqb f 0%float)
  | PyStr s => negb (String.eqb s "")
  | PyList l => match l with [] => false | _ => true end
  | PyDict d => match d with [] => false | _ => true end
  | PyFuture => true
  end.

(** [v is None] *)
Definition is_none (v : pyval) : bool :=
  match v with PyNone => true | _ => false end.

(** Dict lookup: [d.get(k)]; a Python dict holds each key once, the first
    binding of the association list is the one seen. *)
Fixpoint dict_get {V} (k : string) (d : list (string * V)) : option V :=
  match d with
  | [] => None
  | (k', v) :: r => if String.eqb k k' then Some v else dict_get k r
  end.

(** [d[k] = v]: an existing key keeps its position, a new key is appended. *)
Fixpoint dict_set {V} (k : string) (v : V) (d : list (string * V))
  : list (string * V) :=
  match d with
  | [] => [(k, v)]
  | (k', v') :: r =>
      if String.eqb k k' then (k', v) :: r else (k', v') :: dict_set k v r
  end.

(** [d.update(e)] *)
Definition dict_update {V} (d e : list (string * V)) : list (string * V) :=
  fold_left (fun acc kv => dict_set (fst kv) (snd kv) acc) e d.

(** [v[k]] on a value that should be a dict. *)
Definition getitem (v : pyval) (k : string) : outcome pyval :=
  match v with
  | PyDict d => match dict_get k d with Some x => Ret x | None => Raise (KeyError k) end
  | _ => Raise TypeError
  end.

(** ** Volumes and mounts (lines 345-408, 722-740) *)

(** A value of the [volumes] / [read_only_volumes] dicts: a bare container
    path, or a dict with a ['bind'] entry and optionally a ['mode']. *)
Inductive volspec : Type :=
| VolStr (path : string)
| VolDict (d : list (string * string)).

Record bind_entry : Type := mkBind { bind : string; mode : string }.

(** [[f(x) for x in l]]: the items in order, the first exception raised
    ends the comprehension. *)
Fixpoint map_outcome {A B} (f : A -> outcome B) (l : list A) : outcome (list B) :=
  match l with
  | [] => Ret []
  | x :: r =>
      match f x with
      | Raise e => Raise e
      | Ret y => match map_outcome f r with
                 | Raise e => Raise e
                 | Ret ys => Ret (y :: ys)
                 end
      end
  end.

(** docker-py's [DriverConfig(name, options)]: a dict holding ['Name'], and
    ['Options'] when the options are truthy. *)
Definition DriverConfig (name : string) (options : pyval) : pyval :=
  PyDict ([("Name", PyStr name)]
          ++ (if truthy options then [("Options", options)] else [])).

(** docker-py's [Mount(target=..., source=..., type='bind', read_only=...,
    driver_config=...)], at the arguments [mounts] passes: a bind mount
    accepts no [labels], [driver_config], [no_copy] or tmpfs option, and
    raises [InvalidArgument] when one of them is truthy. *)
Definition Mount_bind (target source : string) (read_only : bool)
    (driver_config : pyval) : outcome pyval :=
  if truthy driver_config then Raise InvalidArgument
  else Ret (PyDict [("Target", PyStr target); ("Source", PyStr source);
                    ("Type", PyStr "bind"); ("ReadOnly", PyBool read_only)]).

Section Volumes.

(** [self.format_volume_name(v, self)]: any callable configured by the
    user (the default formats the template with the user name), applied to
    a path template with the spawner fixed; it may raise. *)
Variable format_volume_name : string -> outcome string.

(** The loop of [_volumes_to_binds]; in
    [binds[_fmt(k)] = {'bind': _fmt(v), 'mode': m}] Python evaluates the
    right-hand side, so [_fmt(v)], before the key [_fmt(k)]. *)
Fixpoint _volumes_to_binds (volumes : list (string * volspec))
    (binds : list (string * bind_entry)) (m0 : string)
  : outcome (list (string * bind_entry)) :=
  match volumes with
  | [] => Ret binds
  | (k, v) :: rest =>
      let mv :=
        match v with
        | VolStr p => Ret (m0, p)
        | VolDict d =>
            let m := match dict_get "mode" d with Some m => m | None => m0 end in
            match dict_get "bind" d with
            | Some b => Ret (m, b)
            | None => Raise (KeyError "bind")
            end
        end in
      match mv with
      | Raise e => Raise e
      | Ret (m, p) =>
          match format_volume_name p with
          | Raise e => Raise e
          | Ret fp =>
              match format_volume_name k with
              | Raise e => Raise e
              | Ret fk => _volumes_to_binds rest (dict_set fk (mkBind fp m) binds) m0
              end
          end
      end
  end.

Definition volume_binds (volumes read_only_volumes : list (string * volspec))
  : outcome (list (string * bind_entry)) :=
  match _volumes_to_binds volumes [] "rw" with
  | Raise e => Raise e
  | Ret binds => _volumes_to_binds read_only_volumes binds "ro"
  end.

(** [mounts]: [self.volume_binds] is evaluated for the [len] test and
    again for the comprehension; [mount_driver_config] is
    [DriverConfig(name=self.volume_driver,
    options=self.volume_driver_options or None)]. *)
Definition mounts (volumes read_only_volumes : list (string * volspec))
    (volume_driver : string) (volume_driver_options : list (string * pyval))
  : outcome (list pyval) :=
  match volume_binds volumes read_only_volumes with
  | Raise e => Raise e
  | Ret binds =>
      if Nat.eqb (List.length binds) 0 then Ret []
      else
        let driver := DriverConfig volume_driver
                        (if truthy (PyDict volume_driver_options)
                         then PyDict volume_driver_options else PyNone) in
        match volume_binds volumes read_only_volumes with
        | Raise e => Raise e
        | Ret binds' =>
            map_outcome (fun hv => Mount_bind (bind (snd hv)) (fst hv)
                                     (String.eqb (mode (snd hv)) "ro") driver)
                        binds'
        end
  end.

End Volumes.

(** [sorted(...)] on a list of strings: Python orders [str] by code
    points, which on the UTF-8 bytes of the strings is [String.compare];
    a total order on strings has a single sorted arrangement, so an
    insertion sort gives the same list as Python's merge sort. *)
Fixpoint insert_sorted (s : string) (l : list string) : list string :=
  match l with
  | [] => [s]
  | x :: r => if String.leb s x then s :: l else x :: insert_sorted s r
  end.

Definition sorted_strings (l : list string) : list string :=
  fold_right insert_sorted [] l.

(** [volume_mount_points] (line 354):
    [sorted([value['bind'] for value in self.volume_binds.values()])] *)
Definition volume_mount_points (format_volume_name : string -> outcome string)
    (volumes read_only_volumes : list (string * volspec))
  : outcome (list string) :=
  match volume_binds format_volume_name volumes read_only_volumes with
  | Raise e => Raise e
  | Ret binds => Ret (sorted_strings (map (fun hv => bind (snd hv)) binds))
  end.

(** ** _public_hub_api_url and get_args (lines 439-462) *)

Fixpoint str_drop (n : nat) (s : string) : string :=
  match n, s with
  | O, _ => s
  | S n', String _ r => str_drop n' r
  | S _, EmptyString => EmptyString
  end.

(** [s.split(sep, 1)] unpacked into two names: the parts around the first
    occurrence of [sep]; [None] when there is none (the unpacking then
    raises ValueError). *)
Fixpoint split_once (sep s : string) : option (string * string) :=
  if String.prefix sep s then Some ("", str_drop (String.length sep) s)
  else
    match s with
    | EmptyString => None
    | String c r =>
        match split_once sep r with
        | Some (a, b) => Some (String c a, b)
        | None => None
        end
    end.

Definition _public_hub_api_url (api_url hub_ip_connect : string) : outcome string :=
  match split_once "://" api_url with
  | None => Raise ValueError
  | Some (proto, path) =>
      match split_once ":" path with
      | None => Raise ValueError
      | Some (ip, rest) => Ret (proto ++ "://" ++ hub_ip_connect ++ ":" ++ rest)
      end
  end.

Definition is_hub_api_url_arg (arg : string) : bool :=
  String.prefix "--hub-api-url=" arg.

(** The [for idx, arg in enumerate(list(args))] loop: pop the first
    [--hub-api-url=] argument, if any. *)
Fixpoint pop_first_hub_api_url (args : list string) : list string :=
  match args with
  | [] => []
  | a :: r => if is_hub_api_url_arg a then r else a :: pop_first_hub_api_url r
  end.

(** [get_args]; [base_args] is [super().get_args()] and [api_url] is
    [self.hub.api_url]. *)
Definition get_args (base_args : list string) (hub_ip_connect api_url : string)
  : outcome (list string) :=
  if truthy (PyStr hub_ip_connect) then
    let args := pop_first_hub_api_url base_args in
    match _public_hub_api_url api_url hub_ip_connect with
    | Ret u => Ret (app args [String.append "--hub-api-url=" u])
    | Raise e => Raise e
    end
  else Ret base_args.

(** ** The spawner state, the engine and the monad *)

(** The engine calls issued through [self.docker(...)], and the call of the
    base class's [clear_state]. *)
Inductive event : Type :=
| EvInspectService (name : string)
| EvTasks (service : string)
| EvRemoveService (id : string)
| EvCreateService (name : pyval)
| EvClearState.

(** The configuration the create path of [start] reads: the traits, and
    what the helper methods it calls read. *)
Record create_config : Type := mkCreateConfig {
  image : string;
  (** [self.cmd] when the user set it ([_user_set_cmd]), [None] otherwise *)
  user_cmd : pyval;
  (** the outcome of [self.get_env()], a method of JupyterHub's base
      [Spawner] *)
  get_env_result : outcome pyval;
  (** the traits [self.mounts] is computed from *)
  volumes : list (string * volspec);
  read_only_volumes : list (string * volspec);
  format_volume_name : string -> outcome string;
  volume_driver : string;
  volume_driver_options : list (string * pyval);
  (** what [self.get_args()] reads: [super().get_args()] (JupyterHub's
      base [Spawner]), [self.hub_ip_connect] and [self.hub.api_url] *)
  base_args : list string;
  hub_ip_connect : string;
  hub_api_url : string;
  mem_limit : pyval;
  mem_guarantee : pyval;
  (** the [Float(allow_none=True)] traits of JupyterHub's Spawner *)
  cpu_limit : option float;
  cpu_guarantee : option float;
  network_name : string;
  extra_create_kwargs : list (string * pyval)
}.

(** The attributes of a SwarmSpawner the modelled methods read or write.
    [service_name] is the value of the derived [service_name] property. *)
Record spawner : Type := mkSpawner {
  service_name : string;
  service_id : string;
  api_token : string;
  remove_services : bool;
  port : Z;
  config : create_config
}.

Definition set_service_id (sp : spawner) (id : string) : spawner :=
  mkSpawner (service_name sp) id (api_token sp) (remove_services sp) (port sp)
    (config sp).

Definition set_api_token (sp : spawner) (t : string) : spawner :=
  mkSpawner (service_name sp) (service_id sp) t (remove_services sp) (port sp)
    (config sp).

(** The four slices [start] builds from the flat keyword map, and the keys
    it reports as unused. *)
Record service_spec : Type := mkServiceSpec {
  container_spec : list (string * pyval);
  resource_spec : list (string * pyval);
  task_spec : list (string * pyval);
  endpoint_spec : list (string * pyval);
  unused_keys : list string
}.

(** The docker-py API client, as the responses of the methods the spawner
    calls: [inspect_service(name)], [tasks(filters=...)] (filtered by service
    name and desired state running), [remove_service(id)] and
    [create_service(task_template=..., endpoint_spec=..., name=...)]. *)
Record engine : Type := mkEngine {
  inspect_service : string -> outcome pyval;
  tasks : string -> outcome (list pyval);
  remove_service : string -> outcome unit;
  create_service : service_spec -> pyval -> outcome pyval
}.

Record world : Type := mkWorld {
  self : spawner;
  trace : list event
}.

Definition M (A : Type) : Type := engine -> world -> outcome A * world.

Definition ret {A} (a : A) : M A := fun _ w => (Ret a, w).
Definition raise {A} (e : exn) : M A := fun _ w => (Raise e, w).
Definition bindM {A B} (m : M A) (k : A -> M B) : M B :=
  fun eng w =>
    match m eng w with
    | (Ret a, w') => k a eng w'
    | (Raise e, w') => (Raise e, w')
    end.
Definition lift {A} (o : outcome A) : M A := fun _ w => (o, w).

Notation "x <- m ;; k" := (bindM m (fun x => k))
  (at level 61, m at next level, right associativity).
Notation "m ;;; k" := (bindM m (fun _ => k))
  (at level 61, right associativity).

(** [try: m except e: h(e)] *)
Definition try_except {A} (m : M A) (h : exn -> M A) : M A :=
  fun eng w =>
    match m eng w with
    | (Raise e, w') => h e eng w'
    | r => r
    end.

Definition get_self : M spawner := fun _ w => (Ret (self w), w).
Definition put_self (sp : spawner) : M unit :=
  fun _ w => (Ret tt, mkWorld sp (trace w)).
Definition emit (e : event) : M unit :=
  fun _ w => (Ret tt, mkWorld (self w) (trace w ++ [e])).

(** [yield self.docker(method, ...)]: the call is submitted to the executor
    and its result awaited. *)
Definition docker_inspect_service (name : string) : M pyval :=
  emit (EvInspectService name) ;;; (fun eng w => (inspect_service eng name, w)).
Definition docker_tasks (name : string) : M (list pyval) :=
  emit (EvTasks name) ;;; (fun eng w => (tasks eng name, w)).
Definition docker_remove_service (id : string) : M unit :=
  emit (EvRemoveService id) ;;; (fun eng w => (remove_service eng id, w)).
Definition docker_create_service (spec : service_spec) (name : pyval) : M pyval :=
  emit (EvCreateService name) ;;; (fun eng w => (create_service eng spec name, w)).

(** Assignment to the [Unicode] trait [service_id]. *)
Definition assign_service_id (v : pyval) : M unit :=
  match v with
  | PyStr s => sp <- get_self ;; put_self (set_service_id sp s)
  | _ => raise TraitError
  end.

(** ** get_service (lines 499-521) *)
Definition get_service : M pyval :=
  sp <- get_self ;;
  try_except
    (service <- docker_inspect_service (service_name sp) ;;
     id <- lift (getitem service "ID") ;;
     assign_service_id id ;;;
     ret service)
    (fun e =>
       match e with
       | APIError code =>
           if Z.eqb code 404 then
             (* my service is gone, forget my id *)
             assign_service_id (PyStr "") ;;; ret PyNone
           else if Z.eqb code 500 then
             (* my service is unhealthy, forget my id *)
             assign_service_id (PyStr "") ;;; ret PyNone
           else raise e
       | _ => raise e
       end).

(** [self.get_service()] called without [yield] returns a Future at once:
    tornado runs the coroutine up to its first [yield], which submits
    [inspect_service] to the single-worker executor. [get_task] then submits
    the task listing, which the executor runs after the inspection; the
    rest of [get_service] runs on the IOLoop when the inspection answers,
    so before [get_task] resumes, with its effect on [service_id]. An
    exception it raises stays in the Future, which is never read. *)
Definition get_service_unawaited : M pyval :=
  fun eng w => let '(_, w') := get_service eng w in (Ret PyFuture, w').

(** ** get_task (lines 523-544) *)
Definition get_task : M pyval :=
  sp <- get_self ;;
  fut <- get_service_unawaited ;;
  if is_none fut then ret PyNone
  else
    try_except
      (ts <- docker_tasks (service_name sp) ;;
       match ts with
       | [] => ret PyNone
       | [task] => ret task
       | _ :: _ :: _ =>
           raise (RuntimeError
             ("Found more than one running notebook task for service '"
              ++ service_name sp ++ "'"))
       end)
      (fun e =>
         match e with
         | APIError code => if Z.eqb code 404 then ret PyNone else raise e
         | _ => raise e
         end).

(** ** stop (lines 702-720) *)

(** [self.clear_state()]: the method of JupyterHub's base [Spawner] (not
    overridden here), which sets [self.api_token = '']; the model also
    records that it is reached. *)
Definition clear_state : M unit :=
  emit EvClearState ;;;
  sp <- get_self ;;
  put_self (set_api_token sp "").

Definition stop : M unit :=
  sp <- get_self ;;
  docker_remove_service (service_id sp) ;;;
  clear_state.

(** ** load_state / get_state (lines 429-437) *)

(** JupyterHub's base [Spawner.get_state] returns an empty dict and its
    [load_state] reads nothing this class stores. *)
Definition get_state (sp : spawner) : list (string * pyval) :=
  let state := [] in
  if truthy (PyStr (service_id sp))
  then dict_set "service_id" (PyStr (service_id sp)) state
  else state.

Definition load_state (state : list (string * pyval)) (sp : spawner)
  : outcome spawner :=
  let v := match dict_get "service_id" state with Some v => v | None => PyStr "" end in
  match v with
  | PyStr s => Ret (set_service_id sp s)
  | _ => Raise TraitError
  end.

(** ** The create path of start (lines 588-645) *)

(** [int(f)] on a Python float: truncation toward zero of its exact value;
    infinities raise OverflowError and NaN raises ValueError. *)
Definition float_to_int (f : float) : outcome Z :=
  match Prim2SF f with
  | S754_zero _ => Ret 0%Z
  | S754_infinity _ => Raise OverflowError
  | S754_nan => Raise ValueError
  | S754_finite s m e =>
      let mag := if Z.leb 0 e then Z.shiftl (Zpos m) e
                 else Z.shiftr (Zpos m) (- e) in
      Ret (if s then (- mag)%Z else mag)
  end.

(** [int(x * 1e9) if x else None] for the [cpu_limit] and [cpu_guarantee]
    traits. *)
Definition cpu_nano (x : option float) : outcome pyval :=
  match x with
  | None => Ret PyNone
  | Some f =>
      if truthy (PyFloat f) then
        match float_to_int (PrimFloat.mul f 1e9%float) with
        | Ret z => Ret (PyInt z)
        | Raise e => Raise e
        end
      else Ret PyNone
  end.

(** The keyword map [create_kwargs] of [start], after the [command] entry
    and both [update]s. [image] is [image or self.image]; [start_extra] the
    [extra_create_kwargs] argument of [start]. The keyword arguments of
    [dict(...)] are evaluated left to right: [self.get_env()],
    [self.mounts], [self.get_args()], then the two CPU conversions. *)
Definition build_create_kwargs (c : create_config) (name image : string)
    (start_extra : option (list (string * pyval)))
  : outcome (list (string * pyval)) :=
  match get_env_result c with
  | Raise e => Raise e
  | Ret envv =>
  match mounts (format_volume_name c) (volumes c) (read_only_volumes c)
               (volume_driver c) (volume_driver_options c) with
  | Raise e => Raise e
  | Ret ms =>
  match get_args (base_args c) (hub_ip_connect c) (hub_api_url c) with
  | Raise e => Raise e
  | Ret a =>
  match cpu_nano (cpu_limit c) with
  | Raise e => Raise e
  | Ret cl =>
  match cpu_nano (cpu_guarantee c) with
  | Raise e => Raise e
  | Ret cr =>
      let create_kwargs :=
        [("image", PyStr image); ("env", envv); ("mounts", PyList ms);
         ("name", PyStr name); ("args", PyList (map PyStr a));
         ("mem_limit", mem_limit c);
         ("mem_reservation", mem_guarantee c); ("cpu_limit", cl);
         ("cpu_reservation", cr);
         ("networks", if truthy (PyStr (network_name c))
                      then PyList [PyStr (network_name c)] else PyList [])] in
      let cmd := user_cmd c in
      let create_kwargs :=
        if truthy cmd then dict_set "command" cmd create_kwargs else create_kwargs in
      let create_kwargs := dict_update create_kwargs (extra_create_kwargs c) in
      let create_kwargs :=
        match start_extra with
        | Some e => if truthy (PyDict e) then dict_update create_kwargs e
                    else create_kwargs
        | None => create_kwargs
        end in
      Ret create_kwargs
  end
  end
  end
  end
  end.

Definition _container_spec_keys : list string :=
  ["image"; "command"; "args"; "hostname"; "env"; "workdir"; "user"; "labels";
   "mounts"; "stop_grace_period"; "secrets"; "tty"; "groups"; "open_stdin";
   "read_only"; "stop_signal"; "healthcheck"; "hosts"; "dns_config"; "configs";
   "privileges"].
Definition _resource_spec_keys : list string :=
  ["cpu_limit"; "mem_limit"; "cpu_reservation"; "mem_reservation"].
Definition _task_spec_keys : list string := ["networks"].
Definition _endpoint_spec_keys : list string := ["ports"].

(** [k in l] *)
Definition mem (k : string) (l : list string) : bool := existsb (String.eqb k) l.

Definition slice (keys : list string) (kw : list (string * pyval))
  : list (string * pyval) :=
  filter (fun kv => mem (fst kv) keys) kw.

(** The four dict comprehensions of lines 623-634 and [remaining_keys]
    (line 636); the docker-py constructors receive exactly these slices. *)
Definition partition_create_kwargs (kw : list (string * pyval)) : service_spec :=
  mkServiceSpec
    (slice _container_spec_keys kw)
    (slice _resource_spec_keys kw)
    (slice _task_spec_keys kw)
    (slice _endpoint_spec_keys kw)
    (filter (fun k => negb (mem k (_container_spec_keys ++ _resource_spec_keys
                                   ++ _task_spec_keys ++ _endpoint_spec_keys
                                   ++ ["name"])))
            (map fst kw)).

(** ** The reuse path of start (lines 651-657) *)

(** [line.split('=', 1)[1]] *)
Fixpoint split_eq_tail (s : string) : outcome string :=
  match s with
  | EmptyString => Raise IndexError
  | String c r => if Ascii.eqb c "=" then Ret r else split_eq_tail r
  end.

(** The [for line in ...: if line.startswith(...): ...; break] loop; the
    result is the token assigned, if any. *)
Fixpoint find_api_token (lines : list pyval) : outcome (option string) :=
  match lines with
  | [] => Ret None
  | PyStr line :: rest =>
      if String.prefix "JPY_API_TOKEN=" line
         || String.prefix "JUPYTERHUB_API_TOKEN=" line
      then match split_eq_tail line with
           | Ret t => Ret (Some t)
           | Raise e => Raise e
           end
      else find_api_token rest
  | _ :: _ => Raise AttributeError
  end.

(** Iterating [service['Config']['Env']]: a list yields its items, a dict
    its keys; a string yields one-character strings, none of which starts
    with either prefix. *)
Definition iter_env (v : pyval) : outcome (option string) :=
  match v with
  | PyList l => find_api_token l
  | PyDict d => find_api_token (map (fun kv => PyStr (fst kv)) d)
  | PyStr _ => Ret None
  | _ => Raise TypeError
  end.

Definition reuse_service (service : pyval) : M unit :=
  cfg <- lift (getitem service "Config") ;;
  envv <- lift (getitem cfg "Env") ;;
  tok <- lift (iter_env envv) ;;
  match tok with
  | Some t => sp <- get_self ;; put_self (set_api_token sp t)
  | None => ret tt
  end.

Definition create_new_service (image_arg : option string)
    (extra_arg : option (list (string * pyval))) : M unit :=
  sp <- get_self ;;
  let c := config sp in
  let image := match image_arg with
               | Some i => if truthy (PyStr i) then i else image c
               | None => image c
               end in
  kw <- lift (build_create_kwargs c (service_name sp) image extra_arg) ;;
  let spec := partition_create_kwargs kw in
  name <- lift (getitem (PyDict kw) "name") ;;
  resp <- docker_create_service spec name ;;
  id <- lift (getitem resp "ID") ;;
  assign_service_id id.

(** ** start (lines 565-680); returns [get_ip_and_port()], i.e. the service
    name and the port. *)
Definition start (image_arg : option string)
    (extra_arg : option (list (string * pyval))) : M (string * Z) :=
  service <- get_service ;;
  sp <- get_self ;;
  service <- (if truthy service && remove_services sp
              then docker_remove_service (service_id sp) ;;; ret PyNone
              else ret service) ;;
  (if is_none service then create_new_service image_arg extra_arg
   else reuse_service service) ;;;
  sp <- get_self ;;
  ret (service_name sp, port sp).

(** ** escaped_name (lines 263-264, 410-419) *)

(** [escapism.escape(name, safe=_service_safe_chars, escape_char='_')]
    walks the characters of the name and replaces each unsafe one by the
    escape character followed by ['%X' % byte] for each byte of its UTF-8
    encoding. The safe characters are ASCII and every byte of a non-ASCII
    character's encoding is at least 0x80, so the walk is the same as one
    over the UTF-8 bytes of the name, which is how it is modelled. *)

Definition _service_safe_byte (b : Byte.byte) : bool :=
  let n := Byte.to_N b in
  ((65 <=? n) && (n <=? 90))%N || ((97 <=? n) && (n <=? 122))%N
  || ((48 <=? n) && (n <=? 57))%N || (n =? 45)%N.

Definition _service_escape_char : ascii := "_".

Definition hex_digit (n : N) : ascii :=
  if (n <? 10)%N then ascii_of_N (48 + n) else ascii_of_N (55 + n).

(** ['%X' % n] for a byte value [n]: upper-case hex, no padding. *)
Definition hex_X (n : N) : list ascii :=
  if (n <? 16)%N then [hex_digit n]
  else [hex_digit (n / 16); hex_digit (n mod 16)].

Definition escape_byte (b : Byte.byte) : list ascii :=
  if _service_safe_byte b then [ascii_of_byte b]
  else _service_escape_char :: hex_X (Byte.to_N b).

Definition escape (name : list Byte.byte) : string :=
  string_of_list_ascii (flat_map escape_byte name).

Definition escaped_name (user_name_utf8 : list Byte.byte) : string :=
  escape user_name_utf8.

(** The safe alphabet [A-Za-z0-9-] on characters. *)
Definition safe_ascii (c : ascii) : bool :=
  let n := N_of_ascii c in
  ((65 <=? n) && (n <=? 90))%N || ((97 <=? n) && (n <=? 122))%N
  || ((48 <=? n) && (n <=? 57))%N || (n =? 45)%N.

Definition upper_hex_ascii (c : ascii) : bool :=
  let n := N_of_ascii c in
  ((48 <=? n) && (n <=? 57))%N || ((65 <=? n) && (n <=? 70))%N.

(** ** The client property (lines 46-60): the keyword arguments of the
    [docker.APIClient] built on first access. [tls] is the result of
    [docker.tls.TLSConfig] called with the [tls_config] entries as keyword arguments, [env_kwargs] that of
    [kwargs_from_env()]. *)
Definition client_init_kwargs (tls_config : list (string * pyval)) (tls : outcome pyval)
    (env_kwargs client_kwargs : list (string * pyval))
  : outcome (list (string * pyval)) :=
  let kwargs := [("version", PyStr "auto")] in
  match (if truthy (PyDict tls_config)
         then match tls with
              | Ret t => Ret (dict_set "tls" t kwargs)
              | Raise e => Raise e
              end
         else Ret kwargs) with
  | Raise e => Raise e
  | Ret kwargs => Ret (dict_update (dict_update kwargs env_kwargs) client_kwargs)
  end.

(** ** poll (lines 479-497) *)

(** [v == s] for a string [s] *)
Definition py_eq_str (v : pyval) (s : string) : bool :=
  match v with PyStr s' => String.eqb s' s | _ => false end.

Section Poll.

(** [pprint.pformat] *)
Variable pformat : pyval -> string.

Definition poll : M pyval :=
  service <- get_task ;;
  if negb (truthy service) then ret (PyInt 0)
  else
    service_state <- lift (getitem service "Status") ;;
    state <- lift (getitem service_state "State") ;;
    if py_eq_str state "running" then ret PyNone
    else
      match service with
      | PyDict d => ret (PyDict (map (fun kv => (fst kv, PyStr (pformat (snd kv)))) d))
      | _ => raise AttributeError
      end.

End Poll.

(** ** Auxiliary definitions for the statements *)

(** [z] is the exact value of the finite float [f] truncated toward zero:
    same sign, and [|z| <= |f| < |z| + 1]. *)
Definition truncates_toward_zero (f : float) (z : Z) : Prop :=
  match Prim2SF f with
  | S754_zero _ => z = 0%Z
  | S754_finite s m e =>
      (if s then (z <= 0)%Z else (0 <= z)%Z) /\
      (if Z.leb 0 e then Z.abs z = (Zpos m * 2 ^ e)%Z
       else (Z.abs z * 2 ^ (- e) <= Zpos m < (Z.abs z + 1) * 2 ^ (- e))%Z)
  | _ => False
  end.

(** What the resource spec holds for a CPU trait value [x]: absent ([None])
    for an unset or zero value, otherwise the integer nano-CPU count. *)
Definition cpu_field_spec (x : option float) (v : option pyval) : Prop :=
  match x with
  | None => v = Some PyNone
  | Some f =>
      if PrimFloat.eqb f 0%float then v = Some PyNone
      else exists z, v = Some (PyInt z)
                     /\ truncates_toward_zero (PrimFloat.mul f 1e9%float) z
  end.

Definition count_true (l : list bool) : nat :=
  List.length (filter (fun b => b) l).

(** In how many of the four slices and the unused keys [k] appears. *)
Definition placements (k : string) (s : service_spec) : nat :=
  count_true [mem k (map fst (container_spec s)); mem k (map fst (resource_spec s));
              mem k (map fst (task_spec s)); mem k (map fst (endpoint_spec s));
              mem k (unused_keys s)].

(** Reading one escape code back: a non-escape character stands for itself,
    the escape character is followed by two upper-case hex digits. *)
Definition hex_val (c : ascii) : option N :=
  let n := N_of_ascii c in
  if ((48 <=? n) && (n <=? 57))%N then Some (n - 48)%N
  else if ((65 <=? n) && (n <=? 70))%N then Some (n - 55)%N
  else None.

Definition decode1 (l : list ascii) : option (Byte.byte * list ascii) :=
  match l with
  | [] => None
  | c :: r =>
      if Ascii.eqb c _service_escape_char then
        match r with
        | h1 :: h2 :: r' =>
            match hex_val h1, hex_val h2 with
            | Some a, Some b =>
                match Byte.of_N (16 * a + b) with
                | Some x => Some (x, r')
                | None => None
                end
            | _, _ => None
            end
        | _ => None
        end
      else Some (byte_of_ascii c, r)
  end.

(** A byte whose escape code has the full two hex digits. *)
Definition escapes_in_two_digits (b : Byte.byte) : bool :=
  _service_safe_byte b || (16 <=? Byte.to_N b)%N.

(** A string without the character [':']. *)
Definition has_no_colon (s : string) : bool :=
  forallb (fun c => negb (Ascii.eqb c ":")) (list_ascii_of_string s).

Definition count_hub_api_url_args (args : list string) : nat :=
  List.length (filter is_hub_api_url_arg args).

(** ** Concrete inputs *)

Definition cfg_example : create_config :=
  mkCreateConfig "img:1" PyNone (Ret (PyDict [])) [] [] (fun s => Ret s) "" []
    [] "" "http://127.0.0.1:8081/hub/api" PyNone PyNone None None "net1" [].

Definition spawner_alice : spawner :=
  mkSpawner "jupyter-alice" "abc" "" false 8888 cfg_example.

(** An engine on which every call fails with 404. *)
Definition engine_not_found : engine :=
  mkEngine (fun _ => Raise (APIError 404)) (fun _ => Raise (APIError 404))
    (fun _ => Raise (APIError 404)) (fun _ _ => Raise (APIError 404)).

(** The [inspect_service] response of a running service, in the layout of
    the engine's service objects (ID, Spec.TaskTemplate.ContainerSpec). *)
Definition service_inspect_response : pyval :=
  PyDict [("ID", PyStr "abc");
          ("Spec", PyDict [("Name", PyStr "jupyter-alice");
                           ("TaskTemplate", PyDict [("ContainerSpec", PyDict
                              [("Image", PyStr "img:1");
                               ("Env", PyList [PyStr "JUPYTERHUB_API_TOKEN=abc123"])])])])].

Definition engine_existing (service : pyval) : engine :=
  mkEngine (fun _ => Ret service) (fun _ => Ret [])
    (fun _ => Ret tt) (fun _ _ => Ret (PyDict [("ID", PyStr "new")])).

Definition with_cpu (c : create_config) (l g : option float) : create_config :=
  mkCreateConfig (image c) (user_cmd c) (get_env_result c) (volumes c)
    (read_only_volumes c) (format_volume_name c) (volume_driver c)
    (volume_driver_options c) (base_args c) (hub_ip_connect c) (hub_api_url c)
    (mem_limit c) (mem_guarantee c) l g (network_name c) (extra_create_kwargs c).

(** The same configuration with another [extra_create_kwargs] trait. *)
Definition with_extra_create_kwargs (c : create_config) (e : list (string * pyval))
  : create_config :=
  mkCreateConfig (image c) (user_cmd c) (get_env_result c) (volumes c)
    (read_only_volumes c) (format_volume_name c) (volume_driver c)
    (volume_driver_options c) (base_args c) (hub_ip_connect c) (hub_api_url c)
    (mem_limit c) (mem_guarantee c) (cpu_limit c) (cpu_guarantee c) (network_name c) e.

(** Half a CPU as limit, no reservation; and an explicit zero limit. *)
(** [cfg_example] with a non-empty [extra_create_kwargs] trait. *)
Definition cfg_trait_layer : create_config :=
  with_extra_create_kwargs cfg_example
    [("mem_limit", PyStr "1G"); ("image", PyStr "img:trait")].

Definition cfg_cpu_half : create_config := with_cpu cfg_example (Some 0.5%float) None.
Definition cfg_cpu_zero : create_config := with_cpu cfg_example (Some 0%float) None.

(** Two host directories whose container paths are out of order. *)
Definition volumes_example : list (string * volspec) :=
  [("/srv/h1", VolStr "/z"); ("/srv/h2", VolStr "/a")].

(** [spawner_alice] with the two volumes above configured. *)
Definition spawner_volumes : spawner :=
  mkSpawner "jupyter-alice" "abc" "" false 8888
    (mkCreateConfig "img:1" PyNone (Ret (PyDict [])) volumes_example [] (fun s => Ret s)
       "" [] [] "" "http://127.0.0.1:8081/hub/api" PyNone PyNone None None "net1" []).

(** ** Theorems *)

(** Generic facts on the dict model. *)

Lemma dict_get_set k k' (v : pyval) d :
  dict_get k (dict_set k' v d) = if String.eqb k k' then Some v else dict_get k d.
Proof.
  induction d as [| [k0 v0] r IH]; cbn.
  - reflexivity.
  - destruct (String.eqb k' k0) eqn:E1.
    + apply String.eqb_eq in E1; subst k0. cbn.
      destruct (String.eqb k k'); reflexivity.
    + cbn. rewrite IH.
      destruct (String.eqb k k0) eqn:E2; [|reflexivity].
      apply String.eqb_eq in E2; subst k0.
      destruct (String.eqb k k') eqn:E3; [|reflexivity].
      apply String.eqb_eq in E3; subst k'.
      rewrite String.eqb_refl in E1; discriminate.
Qed.

Lemma dict_get_update_other k (d e : list (string * pyval)) :
  dict_get k e = None -> dict_get k (dict_update d e) = dict_get k d.
Proof.
  unfold dict_update. revert d.
  induction e as [| [k0 v0] r IH]; intros d He; cbn in *.
  - reflexivity.
  - destruct (String.eqb k k0) eqn:E; [discriminate|].
    rewrite IH by exact He. rewrite dict_get_set, E. reflexivity.
Qed.

Ltac unfold_M :=
  unfold try_except, docker_inspect_service, docker_tasks, docker_remove_service,
    docker_create_service, assign_service_id, put_self, emit, get_self, bindM,
    ret, raise, lift in *.

(** Whatever the engine answers, [get_service] issues one inspection. *)
Lemma get_service_trace (eng : engine) (sp : spawner) (tr : list event) :
  trace (snd (get_service eng (mkWorld sp tr)))
  = (tr ++ [EvInspectService (service_name sp)])%list.
Proof.
  unfold get_service. unfold_M. cbn.
  destruct (inspect_service eng (service_name sp)) as [v | e]; cbn.
  - destruct (getitem v "ID") as [[| b | z | f | s | l | d |] | e]; cbn;
      try reflexivity.
    destruct e; try reflexivity.
    destruct (Z.eqb status_code 404); [reflexivity|].
    destruct (Z.eqb status_code 500); reflexivity.
  - destruct e; try reflexivity.
    destruct (Z.eqb status_code 404); [reflexivity|].
    destruct (Z.eqb status_code 500); reflexivity.
Qed.

Lemma mem_In k l : mem k l = true <-> In k l.
Proof.
  unfold mem. rewrite existsb_exists. split.
  - intros [x [Hx Hk]]. apply String.eqb_eq in Hk. subst. exact Hx.
  - intros H. exists k. split; [exact H | apply String.eqb_refl].
Qed.

(** C1 (as the code has it): [stop] calls [remove_service] on the stored
    id and reaches [clear_state] exactly when that call returns normally;
    [clear_state] (JupyterHub's base method, not overridden) empties
    [api_token] and leaves [service_id] as it was. When the removal raises
    (NotFound included), the error propagates, [clear_state] is not reached
    and the spawner is left as it was. *)
Theorem stop_clears_only_after_remove (eng : engine) (sp : spawner) (tr : list event) :
  stop eng (mkWorld sp tr) =
  match remove_service eng (service_id sp) with
  | Ret _ => (Ret tt, mkWorld (set_api_token sp "")
                        (tr ++ [EvRemoveService (service_id sp); EvClearState]))
  | Raise e => (Raise e, mkWorld sp (tr ++ [EvRemoveService (service_id sp)]))
  end.
Proof.
  unfold stop, docker_remove_service, clear_state, emit, get_self, put_self, bindM; cbn.
  destruct (remove_service eng (service_id sp)); cbn.
  - rewrite <- app_assoc. reflexivity.
  - reflexivity.
Qed.

(** C1 (counterexample): a known id whose removal reports NotFound (404):
    [stop] raises the APIError, [clear_state] is not reached and the record
    still holds the id. *)
Lemma stop_not_found_keeps_record :
  let '(r, w) := stop engine_not_found (mkWorld spawner_alice []) in
  r = Raise (APIError 404) /\ ~ In EvClearState (trace w)
  /\ service_id (self w) = "abc".
Proof.
  vm_compute. split; [reflexivity | split; [| reflexivity]].
  intros [H | []]. discriminate H.
Qed.

(** C6: the result of [get_task] is fixed by the engine's answer to the
    task query: no task gives [None], exactly one task is returned as is,
    more than one raises the RuntimeError of the consistency check (never a
    task), a 404 gives [None] and any other failure propagates. *)
Theorem get_task_result (eng : engine) (sp : spawner) (tr : list event) :
  fst (get_task eng (mkWorld sp tr)) =
  match tasks eng (service_name sp) with
  | Ret [] => Ret PyNone
  | Ret [t] => Ret t
  | Ret (_ :: _ :: _) =>
      Raise (RuntimeError
        ("Found more than one running notebook task for service '"
         ++ service_name sp ++ "'"))
  | Raise (APIError code) => if Z.eqb code 404 then Ret PyNone else Raise (APIError code)
  | Raise e => Raise e
  end.
Proof.
  unfold get_task, get_service_unawaited, try_except, docker_tasks, emit,
    get_self, bindM, ret, raise; cbn -[get_service].
  destruct (get_service eng (mkWorld sp tr)) as [r0 w0]; cbn.
  destruct (tasks eng (service_name sp)) as [ts | e]; cbn.
  - destruct ts as [| t [| t' r]]; reflexivity.
  - destruct e; try reflexivity. destruct (Z.eqb status_code 404); reflexivity.
Qed.

(** C7: when [inspect_service] fails, [get_service] returns [None] and
    clears the stored id for status 404 or 500, and re-raises the very same
    error otherwise, leaving the id untouched. *)
Theorem get_service_failure (eng : engine) (sp : spawner) (tr : list event) (e : exn)
  (H : inspect_service eng (service_name sp) = Raise e) :
  get_service eng (mkWorld sp tr) =
  match e with
  | APIError code =>
      if Z.eqb code 404 || Z.eqb code 500
      then (Ret PyNone, mkWorld (set_service_id sp "")
                               (tr ++ [EvInspectService (service_name sp)]))
      else (Raise e, mkWorld sp (tr ++ [EvInspectService (service_name sp)]))
  | _ => (Raise e, mkWorld sp (tr ++ [EvInspectService (service_name sp)]))
  end.
Proof.
  unfold get_service, try_except, docker_inspect_service, assign_service_id,
    put_self, emit, get_self, bindM, ret, raise; cbn.
  rewrite H; cbn.
  destruct e; try reflexivity.
  destruct (Z.eqb status_code 404); [reflexivity|].
  destruct (Z.eqb status_code 500); reflexivity.
Qed.

Lemma get_service_failure_witness :
  get_service engine_not_found (mkWorld spawner_alice []) =
  (Ret PyNone, mkWorld (set_service_id spawner_alice "")
                       [EvInspectService "jupyter-alice"]).
Proof.
  exact (get_service_failure engine_not_found spawner_alice [] (APIError 404)
           eq_refl).
Defined.

(** C8: the value [get_task] compares with [None] is the Future of the
    un-awaited [get_service()] call, never [None]; so for every spawner and
    engine [get_task] goes on to the task query: its engine calls are the
    submitted inspect and then the task listing. *)
Theorem get_task_always_lists_tasks (eng : engine) (sp : spawner) (tr : list event) :
  is_none (match fst (get_service_unawaited eng (mkWorld sp tr)) with
           | Ret v => v | Raise _ => PyNone end) = false
  /\ trace (snd (get_task eng (mkWorld sp tr)))
     = (tr ++ [EvInspectService (service_name sp); EvTasks (service_name sp)])%list.
Proof.
  pose proof (get_service_trace eng sp tr) as Ht.
  split.
  { unfold get_service_unawaited. destruct (get_service eng (mkWorld sp tr)).
    reflexivity. }
  unfold get_task, get_service_unawaited, try_except, docker_tasks, emit,
    get_self, bindM, ret, raise; cbn -[get_service].
  destruct (get_service eng (mkWorld sp tr)) as [r0 [s0 t0]]; cbn in Ht |- *.
  subst t0. rewrite <- app_assoc. cbn.
  destruct (tasks eng (service_name sp)) as [ts | e]; cbn.
  - destruct ts as [| t [| t' r]]; reflexivity.
  - destruct e; try reflexivity. destruct (Z.eqb status_code 404); reflexivity.
Qed.

(** C9 (the reuse path at an engine service object): the inspect response
    of an existing service carries its environment under
    [Spec.TaskTemplate.ContainerSpec.Env]; [start] looks it up under
    [Config.Env], raises KeyError, and no token is extracted. *)
Theorem start_reuse_reads_config_env :
  let '(r, w) := start None None (engine_existing service_inspect_response)
                   (mkWorld (set_service_id spawner_alice "") []) in
  r = Raise (KeyError "Config") /\ api_token (self w) = ""
  /\ trace w = [EvInspectService "jupyter-alice"].
Proof. vm_compute. auto. Qed.

(** The reuse path does extract the token from a container-style record
    with a [Config.Env] list, without a create call. *)
Lemma start_reuse_config_env_layout :
  let '(r, w) := start None None
                   (engine_existing
                      (PyDict [("ID", PyStr "abc");
                               ("Config", PyDict [("Env", PyList
                                  [PyStr "PATH=/bin"; PyStr "JUPYTERHUB_API_TOKEN=abc123";
                                   PyStr "JPY_API_TOKEN=other"])])]))
                   (mkWorld (set_service_id spawner_alice "") []) in
  r = Ret ("jupyter-alice", 8888%Z) /\ api_token (self w) = "abc123"
  /\ trace w = [EvInspectService "jupyter-alice"].
Proof. vm_compute. auto. Qed.

(** C10: [get_state] stores [service_id] exactly when it is non-empty, and
    [load_state] of that state restores the same [service_id] on any
    spawner (the empty string when the key is absent). *)
Theorem state_roundtrip (sp sp' : spawner) :
  (dict_get "service_id" (get_state sp) <> None <-> service_id sp <> "")
  /\ load_state (get_state sp) sp' = Ret (set_service_id sp' (service_id sp)).
Proof.
  unfold get_state, load_state, truthy.
  destruct (String.eqb (service_id sp) "") eqn:E; cbn.
  - apply String.eqb_eq in E. rewrite E. split; [|reflexivity].
    split; intros H; contradiction H; reflexivity.
  - split; [|reflexivity].
    split; intros _; [| discriminate].
    intros H. rewrite H, String.eqb_refl in E. discriminate.
Qed.

(** Facts on the slices of the partition. *)

Lemma mem_app k a b : mem k (a ++ b) = mem k a || mem k b.
Proof. unfold mem. apply existsb_app. Qed.

Lemma mem_filter (p : string -> bool) k l :
  mem k (filter p l) = p k && mem k l.
Proof.
  unfold mem. induction l as [| x r IH]; cbn; [destruct (p k); reflexivity|].
  destruct (String.eqb k x) eqn:E.
  - apply String.eqb_eq in E; subst x.
    destruct (p k) eqn:Ep; cbn.
    + rewrite String.eqb_refl. reflexivity.
    + rewrite IH; cbn; try rewrite Ep; reflexivity.
  - destruct (p x); cbn; rewrite ?E; cbn; exact IH.
Qed.

Lemma map_fst_slice keys (kw : list (string * pyval)) :
  map fst (slice keys kw) = filter (fun k => mem k keys) (map fst kw).
Proof.
  unfold slice. induction kw as [| [k v] r IH]; cbn; [reflexivity|].
  destruct (mem k keys); cbn; rewrite IH; reflexivity.
Qed.

Lemma dict_get_slice k keys (kw : list (string * pyval)) :
  dict_get k (slice keys kw) = if mem k keys then dict_get k kw else None.
Proof.
  unfold slice. induction kw as [| [k0 v] r IH]; cbn.
  - destruct (mem k keys); reflexivity.
  - destruct (mem k0 keys) eqn:E0; cbn.
    + destruct (String.eqb k k0) eqn:E; [|exact IH].
      apply String.eqb_eq in E; subst k0. rewrite E0. reflexivity.
    + rewrite IH. destruct (String.eqb k k0) eqn:E; [|reflexivity].
      apply String.eqb_eq in E; subst k0. rewrite E0. reflexivity.
Qed.

(** C5 (as the code has it): every key of the keyword map other than
    ["name"] lands in exactly one of the container, resource, task and
    endpoint slices or in the unused keys; ["name"], passed on its own to
    [create_service], is in none of them. The partition is a total function
    of the map. *)
Theorem partition_places_every_key (kw : list (string * pyval)) (k : string)
  (Hk : In k (map fst kw)) :
  placements k (partition_create_kwargs kw) = if String.eqb k "name" then 0 else 1.
Proof.
  apply mem_In in Hk.
  unfold placements, partition_create_kwargs; cbn [container_spec resource_spec
    task_spec endpoint_spec unused_keys].
  rewrite !map_fst_slice, !mem_filter, Hk, !andb_true_r.
  set (all := (_container_spec_keys ++ _resource_spec_keys ++ _task_spec_keys
              ++ _endpoint_spec_keys ++ ["name"])%list).
  destruct (mem k all) eqn:Ha.
  - apply mem_In in Ha. unfold all in Ha; cbn in Ha.
    repeat (destruct Ha as [<- | Ha]; [reflexivity |]). destruct Ha.
  - unfold all in Ha. rewrite !mem_app in Ha.
    destruct (mem k _container_spec_keys), (mem k _resource_spec_keys),
      (mem k _task_spec_keys), (mem k _endpoint_spec_keys); try discriminate Ha.
    unfold mem in Ha; cbn in Ha. rewrite orb_false_r in Ha. rewrite Ha.
    reflexivity.
Qed.

Lemma partition_places_every_key_witness :
  placements "cpu_limit"
    (partition_create_kwargs [("image", PyStr "img:1"); ("cpu_limit", PyNone)]) = 1.
Proof.
  exact (partition_places_every_key [("image", PyStr "img:1"); ("cpu_limit", PyNone)]
           "cpu_limit" (or_intror (or_introl eq_refl))).
Defined.

(** C5 (counterexample): the keyword map [start] builds always holds
    ["name"], and that key is in none of the four slices nor in the unused
    keys. *)
Lemma partition_leaves_out_name :
  exists kw, build_create_kwargs cfg_example "jupyter-alice" "img:1" None = Ret kw
             /\ mem "name" (map fst kw) = true
             /\ placements "name" (partition_create_kwargs kw) = 0.
Proof. eexists. split; [reflexivity|]. split; reflexivity. Qed.

(** [int()] of a finite float truncates its exact value toward zero. *)
Lemma float_to_int_truncates (f : float) (z : Z) :
  float_to_int f = Ret z -> truncates_toward_zero f z.
Proof.
  unfold float_to_int, truncates_toward_zero.
  destruct (Prim2SF f) as [s | s | | s m e]; intros H; inversion H; subst; clear H.
  - reflexivity.
  - assert (Hm : (0 < Zpos m)%Z) by lia.
    destruct (Z.leb 0 e) eqn:He.
    + apply Z.leb_le in He.
      rewrite Z.shiftl_mul_pow2 by exact He.
      assert (Hp : (0 < 2 ^ e)%Z) by (apply Z.pow_pos_nonneg; lia).
      set (P := (Zpos m * 2 ^ e)%Z).
      assert (HP : (0 < P)%Z) by (unfold P; nia).
      destruct s; split; lia.
    + apply Z.leb_gt in He.
      rewrite Z.shiftr_div_pow2 by lia.
      assert (Hd : (0 < 2 ^ (- e))%Z) by (apply Z.pow_pos_nonneg; lia).
      set (d := (2 ^ (- e))%Z) in *.
      assert (Hq : (0 <= Zpos m / d)%Z) by (apply Z.div_pos; lia).
      pose proof (Z.div_mod (Zpos m) d ltac:(lia)) as Hdm.
      pose proof (Z.mod_pos_bound (Zpos m) d Hd) as Hr.
      set (q := (Zpos m / d)%Z) in *.
      set (r := (Zpos m mod d)%Z) in *.
      destruct s.
      * rewrite Z.abs_opp, Z.abs_eq by exact Hq. split; nia.
      * rewrite Z.abs_eq by exact Hq. split; nia.
Qed.

Lemma cpu_nano_spec (x : option float) (v : pyval) :
  cpu_nano x = Ret v -> cpu_field_spec x (Some v).
Proof.
  destruct x as [f |]; cbn; intros H.
  - destruct (PrimFloat.eqb f 0%float) eqn:E; cbn in H.
    + inversion H; reflexivity.
    + destruct (float_to_int (PrimFloat.mul f 1e9%float)) as [z | e] eqn:Ez;
        inversion H; subst.
      exists z. split; [reflexivity|]. apply float_to_int_truncates. exact Ez.
  - inversion H; reflexivity.
Qed.

(** C2 (as the code has it): in the create path, unless an
    [extra_create_kwargs] dict overrides the key, the resource spec gets,
    for the CPU limit and for the CPU reservation: [None] when the trait is
    unset or zero, and otherwise [int(x * 1e9)], the floating-point product
    truncated toward zero. *)
Theorem create_path_cpu_fields (c : create_config) (name image : string)
  (extra : option (list (string * pyval))) (kw : list (string * pyval))
  (Hb : build_create_kwargs c name image extra = Ret kw)
  (Hc : dict_get "cpu_limit" (extra_create_kwargs c) = None
        /\ dict_get "cpu_reservation" (extra_create_kwargs c) = None)
  (He : forall e, extra = Some e ->
        dict_get "cpu_limit" e = None /\ dict_get "cpu_reservation" e = None) :
  cpu_field_spec (cpu_limit c)
    (dict_get "cpu_limit" (resource_spec (partition_create_kwargs kw)))
  /\ cpu_field_spec (cpu_guarantee c)
    (dict_get "cpu_reservation" (resource_spec (partition_create_kwargs kw))).
Proof.
  unfold build_create_kwargs in Hb.
  destruct (get_env_result c) as [envv | ?]; [| discriminate Hb].
  destruct (mounts _ _ _ _ _) as [ms | ?]; [| discriminate Hb].
  destruct (get_args _ _ _) as [a | ?]; [| discriminate Hb].
  destruct (cpu_nano (cpu_limit c)) as [cl | ?] eqn:E1; [| discriminate Hb].
  destruct (cpu_nano (cpu_guarantee c)) as [cr | ?] eqn:E2; [| discriminate Hb].
  injection Hb as <-.
  unfold partition_create_kwargs; cbn [resource_spec].
  rewrite !dict_get_slice. cbn [mem existsb String.eqb].
  destruct Hc as [Hc1 Hc2].
  assert (Hx : forall k, (k = "cpu_limit" \/ k = "cpu_reservation") ->
    forall kw0, dict_get k
      (match extra with
       | Some e => if truthy (PyDict e) then dict_update (dict_update kw0 (extra_create_kwargs c)) e
                   else dict_update kw0 (extra_create_kwargs c)
       | None => dict_update kw0 (extra_create_kwargs c)
       end) = dict_get k kw0).
  { intros k Hk kw0.
    assert (Hck : dict_get k (extra_create_kwargs c) = None)
      by (destruct Hk as [-> | ->]; assumption).
    destruct extra as [e |].
    - destruct (He e eq_refl) as [He1 He2].
      assert (Hek : dict_get k e = None) by (destruct Hk as [-> | ->]; assumption).
      destruct (truthy (PyDict e));
        rewrite ?(dict_get_update_other k _ e Hek), dict_get_update_other by exact Hck;
        reflexivity.
    - apply dict_get_update_other. exact Hck. }
  rewrite !Hx by auto.
  destruct (truthy (user_cmd c)); rewrite ?dict_get_set; cbn;
    split; apply cpu_nano_spec; assumption.
Qed.

Lemma create_path_cpu_fields_witness :
  exists kw, build_create_kwargs cfg_cpu_half "jupyter-alice" "img:1" None = Ret kw
    /\ cpu_field_spec (cpu_limit cfg_cpu_half)
         (dict_get "cpu_limit" (resource_spec (partition_create_kwargs kw)))
    /\ cpu_field_spec (cpu_guarantee cfg_cpu_half)
         (dict_get "cpu_reservation" (resource_spec (partition_create_kwargs kw))).
Proof.
  eexists. split; [reflexivity|].
  apply (create_path_cpu_fields cfg_cpu_half "jupyter-alice" "img:1" None).
  - reflexivity.
  - split; reflexivity.
  - intros e H; discriminate H.
Defined.

(** C2 (counterexample): an explicit CPU limit of zero builds the same
    keyword map as an unset one; the resource spec gets [None] for both. *)
Lemma cpu_limit_zero_is_unset :
  build_create_kwargs cfg_cpu_zero "jupyter-alice" "img:1" None
  = build_create_kwargs cfg_example "jupyter-alice" "img:1" None
  /\ exists kw, build_create_kwargs cfg_cpu_zero "jupyter-alice" "img:1" None = Ret kw
       /\ dict_get "cpu_limit" (resource_spec (partition_create_kwargs kw)) = Some PyNone.
Proof.
  split; [reflexivity|]. eexists. split; reflexivity.
Qed.

(** The binds dict is empty only when both input maps are. *)

Lemma dict_set_nonempty {V} (k : string) (v : V) (d : list (string * V)) :
  dict_set k v d <> [].
Proof. destruct d as [| [k0 v0] r]; cbn; [discriminate|]. destruct (String.eqb k k0); discriminate. Qed.

Lemma volumes_to_binds_empty fmt vols binds m0 binds' :
  _volumes_to_binds fmt vols binds m0 = Ret binds' ->
  (binds' = [] <-> vols = [] /\ binds = []).
Proof.
  revert binds. induction vols as [| [k v] r IH]; intros binds H; cbn in H.
  - injection H as ->. split; [intros ->; auto | intros [_ ->]; reflexivity].
  - destruct (match v with
              | VolStr p => Ret (m0, p)
              | VolDict d => _ end) as [[m p] | e]; [| discriminate H].
    destruct (fmt p) as [fp | e]; [| discriminate H].
    destruct (fmt k) as [fk | e]; [| discriminate H].
    apply IH in H. split; [| intros [Hc _]; discriminate Hc].
    intros Hb. apply H in Hb as [_ Hb]. exfalso. exact (dict_set_nonempty _ _ _ Hb).
Qed.

Lemma map_outcome_Mount_bind_raises (driver : pyval) (binds : list (string * bind_entry)) :
  truthy driver = true -> binds <> [] ->
  map_outcome (fun hv => Mount_bind (bind (snd hv)) (fst hv)
                           (String.eqb (mode (snd hv)) "ro") driver) binds
  = Raise InvalidArgument.
Proof.
  intros Ht Hb. destruct binds as [| hv r]; [contradiction|].
  cbn. unfold Mount_bind. rewrite Ht. reflexivity.
Qed.

Lemma mounts_result (fmt : string -> outcome string)
  (volumes read_only_volumes : list (string * volspec))
  (volume_driver : string) (volume_driver_options : list (string * pyval)) :
  mounts fmt volumes read_only_volumes volume_driver volume_driver_options
  = match volume_binds fmt volumes read_only_volumes with
    | Raise e => Raise e
    | Ret _ =>
        match (volumes ++ read_only_volumes)%list with
        | [] => Ret []
        | _ :: _ => Raise InvalidArgument
        end
    end.
Proof.
  unfold mounts. destruct (volume_binds fmt volumes read_only_volumes) as [b | e] eqn:Eb;
    [| reflexivity].
  unfold volume_binds in Eb.
  destruct (_volumes_to_binds fmt volumes [] "rw") as [b1 | e] eqn:E1; [| discriminate Eb].
  pose proof (volumes_to_binds_empty _ _ _ _ _ Eb) as H2.
  pose proof (volumes_to_binds_empty _ _ _ _ _ E1) as H1.
  destruct (volumes ++ read_only_volumes)%list as [| x r] eqn:Ev.
  - apply app_eq_nil in Ev as [-> ->].
    destruct H1 as [_ H1]. rewrite (H1 (conj eq_refl eq_refl)) in H2.
    destruct H2 as [_ H2]. rewrite (H2 (conj eq_refl eq_refl)). reflexivity.
  - assert (Hne : b <> []).
    { intros Hb. apply H2 in Hb as [Hro Hb1]. subst read_only_volumes.
      apply H1 in Hb1 as [Hv _]. subst volumes. discriminate Ev. }
    destruct b as [| hv r'] eqn:Eb'; [contradiction|]. cbn [List.length Nat.eqb].
    rewrite <- Eb'.
    apply map_outcome_Mount_bind_raises; [| rewrite Eb'; exact Hne].
    unfold DriverConfig. reflexivity.
Qed.




(** Per-byte facts of the escape, checked over all 256 bytes. *)

Lemma escape_byte_alphabet (b : Byte.byte) :
  forallb (fun c => safe_ascii c || Ascii.eqb c _service_escape_char) (escape_byte b)
  = true.
Proof. destruct b; reflexivity. Qed.

Lemma decode1_escape_byte (b : Byte.byte) (rest : list ascii) :
  escapes_in_two_digits b = true -> decode1 (escape_byte b ++ rest) = Some (b, rest).
Proof. intros H; destruct b; vm_compute in H |- *; first [discriminate H | reflexivity]. Qed.

Lemma escape_byte_nonempty (b : Byte.byte) : escape_byte b <> [].
Proof. unfold escape_byte. destruct (_service_safe_byte b); discriminate. Qed.

(** C4 (as the code has it): every character of an escaped name is in the
    safe alphabet [A-Za-z0-9-] or is the escape character ['_']; and two
    usernames whose unsafe bytes are all at least 0x10 (so that each escape
    carries two hex digits) have distinct escaped names when they differ. *)
Theorem escaped_name_alphabet_injective :
  (forall u, forallb (fun c => safe_ascii c || Ascii.eqb c _service_escape_char)
               (list_ascii_of_string (escaped_name u)) = true)
  /\ (forall u1 u2, forallb escapes_in_two_digits u1 = true ->
        forallb escapes_in_two_digits u2 = true ->
        escaped_name u1 = escaped_name u2 -> u1 = u2).
Proof.
  unfold escaped_name, escape. split.
  - intros u. rewrite list_ascii_of_string_of_list_ascii.
    induction u as [| b r IH]; cbn; [reflexivity|].
    rewrite forallb_app, escape_byte_alphabet, IH. reflexivity.
  - intros u1 u2 H1 H2 Heq.
    apply (f_equal list_ascii_of_string) in Heq.
    rewrite !list_ascii_of_string_of_list_ascii in Heq.
    revert u2 H2 Heq. induction u1 as [| b1 r1 IH]; intros u2 H2 Heq.
    + destruct u2 as [| b2 r2]; [reflexivity|].
      cbn in Heq. destruct (escape_byte b2) eqn:Eb; [| discriminate Heq].
      exfalso; exact (escape_byte_nonempty b2 Eb).
    + destruct u2 as [| b2 r2].
      * cbn in Heq. destruct (escape_byte b1) eqn:Eb; [| discriminate Heq].
        exfalso; exact (escape_byte_nonempty b1 Eb).
      * cbn in H1, H2, Heq.
        apply andb_true_iff in H1 as [Hb1 Hr1].
        apply andb_true_iff in H2 as [Hb2 Hr2].
        apply (f_equal decode1) in Heq.
        rewrite !decode1_escape_byte in Heq by assumption.
        injection Heq as -> Hr.
        f_equal. exact (IH Hr1 r2 Hr2 Hr).
Qed.

Lemma escaped_name_alphabet_injective_witness :
  escaped_name (list_byte_of_string "a.b") <> escaped_name (list_byte_of_string "a_b").
Proof.
  intros H.
  apply (proj2 escaped_name_alphabet_injective
           (list_byte_of_string "a.b") (list_byte_of_string "a_b") eq_refl eq_refl) in H.
  discriminate H.
Defined.

(** C4 (counterexample): the escaped name of ["a.b"] is ["a_2Eb"], whose
    escape character ['_'] is outside the safe alphabet. *)
Lemma escaped_name_has_escape_char :
  escaped_name (list_byte_of_string "a.b") = "a_2Eb" /\ safe_ascii "_" = false.
Proof. split; reflexivity. Qed.

(** Bytes below 0x10 are escaped with a single hex digit, so the escape of
    the two bytes 0x01, ['0'] is the escape of the single byte 0x10. *)
Lemma escape_collision_below_0x10 :
  escaped_name [Byte.x01; Byte.x30] = escaped_name [Byte.x10].
Proof. reflexivity. Qed.

(** ** Further properties of the code *)

Lemma prefix_app (s t : string) : String.prefix s (s ++ t) = true.
Proof.
  induction s as [| c r IH]; cbn; [destruct t; reflexivity|].
  destruct (ascii_dec c c) as [_ | n]; [exact IH | contradiction n; reflexivity].
Qed.

Lemma str_drop_app (s t : string) : str_drop (String.length s) (s ++ t) = t.
Proof. induction s as [| c r IH]; cbn; [reflexivity | exact IH]. Qed.

Lemma split_once_colon (a sep' b : string) :
  has_no_colon a = true ->
  split_once (String ":" sep') (a ++ String ":" sep' ++ b) = Some (a, b).
Proof.
  unfold has_no_colon. induction a as [| c r IH]; intros H.
  - pose proof (prefix_app (String ":" sep') b) as P.
    pose proof (str_drop_app (String ":" sep') b) as D.
    cbn [append] in *. unfold split_once; fold split_once.
    rewrite P, D. reflexivity.
  - cbn in H. apply andb_true_iff in H as [Hc Hr].
    cbn [append] in IH |- *. unfold split_once at 1; fold split_once.
    cbn [String.prefix].
    destruct (ascii_dec ":" c) as [E | _].
    + subst c. discriminate Hc.
    + rewrite (IH Hr). reflexivity.
Qed.

Lemma split_once_no_colon (sep' s : string) :
  has_no_colon s = true -> split_once (String ":" sep') s = None.
Proof.
  unfold has_no_colon. induction s as [| c r IH]; intros H; [reflexivity|].
  cbn in H. apply andb_true_iff in H as [Hc Hr].
  unfold split_once; fold split_once. cbn [String.prefix].
  destruct (ascii_dec ":" c) as [E | _].
  - subst c. discriminate Hc.
  - rewrite (IH Hr). reflexivity.
Qed.

(** [_public_hub_api_url] swaps the host of [proto://host:rest] for
    [hub_ip_connect] and keeps the scheme and everything after the first
    colon of the host part (port and path). *)
Theorem public_hub_api_url_replaces_host (proto ip rest hub_ip_connect : string)
  (Hp : has_no_colon proto = true) (Hi : has_no_colon ip = true) :
  _public_hub_api_url (proto ++ "://" ++ ip ++ ":" ++ rest) hub_ip_connect
  = Ret (proto ++ "://" ++ hub_ip_connect ++ ":" ++ rest).
Proof.
  unfold _public_hub_api_url.
  rewrite (split_once_colon proto "//" (ip ++ ":" ++ rest) Hp).
  rewrite (split_once_colon ip "" rest Hi). reflexivity.
Qed.

Lemma public_hub_api_url_replaces_host_witness :
  _public_hub_api_url ("http" ++ "://" ++ "127.0.0.1" ++ ":" ++ "8081/hub/api") "10.0.0.5"
  = Ret ("http" ++ "://" ++ "10.0.0.5" ++ ":" ++ "8081/hub/api").
Proof.
  exact (public_hub_api_url_replaces_host "http" "127.0.0.1" "8081/hub/api" "10.0.0.5"
           eq_refl eq_refl).
Defined.

(** An API URL whose host part has no port ([proto://host], no colon in
    [proto] or [host]) makes [_public_hub_api_url] raise ValueError. *)
Theorem public_hub_api_url_needs_port (proto host hub_ip_connect : string)
  (Hp : has_no_colon proto = true) (Hh : has_no_colon host = true) :
  _public_hub_api_url (proto ++ "://" ++ host) hub_ip_connect = Raise ValueError.
Proof.
  unfold _public_hub_api_url.
  rewrite (split_once_colon proto "//" host Hp).
  rewrite (split_once_no_colon "" host Hh). reflexivity.
Qed.

Lemma public_hub_api_url_needs_port_witness :
  _public_hub_api_url ("http" ++ "://" ++ "hub") "10.0.0.5" = Raise ValueError.
Proof. exact (public_hub_api_url_needs_port "http" "hub" "10.0.0.5" eq_refl eq_refl). Defined.

Lemma pop_first_hub_api_url_count (args : list string) :
  count_hub_api_url_args (pop_first_hub_api_url args)
  = count_hub_api_url_args args - 1.
Proof.
  unfold count_hub_api_url_args.
  induction args as [| a r IH]; cbn; [reflexivity|].
  destruct (is_hub_api_url_arg a) eqn:E; cbn; [lia|].
  rewrite E. exact IH.
Qed.

Lemma pop_first_hub_api_url_others (args : list string) :
  filter (fun a => negb (is_hub_api_url_arg a)) (pop_first_hub_api_url args)
  = filter (fun a => negb (is_hub_api_url_arg a)) args.
Proof.
  induction args as [| a r IH]; cbn; [reflexivity|].
  destruct (is_hub_api_url_arg a) eqn:E; cbn; [reflexivity|].
  rewrite E. cbn. f_equal. exact IH.
Qed.

(** With [hub_ip_connect] set, [get_args] drops the first [--hub-api-url=]
    argument it is given and appends one built from [_public_hub_api_url]:
    the new URL argument comes last, every other argument keeps its order,
    and the number of [--hub-api-url=] arguments is the old one, or one if
    there was none. *)
Theorem get_args_sets_hub_api_url (base_args : list string)
  (hub_ip_connect api_url : string) (res : list string)
  (Hip : hub_ip_connect <> "") (H : get_args base_args hub_ip_connect api_url = Ret res) :
  exists u, _public_hub_api_url api_url hub_ip_connect = Ret u
    /\ last res "" = "--hub-api-url=" ++ u
    /\ filter (fun a => negb (is_hub_api_url_arg a)) res
       = filter (fun a => negb (is_hub_api_url_arg a)) base_args
    /\ count_hub_api_url_args res = Nat.max 1 (count_hub_api_url_args base_args).
Proof.
  unfold get_args, truthy in H.
  destruct (String.eqb hub_ip_connect "") eqn:E.
  - apply String.eqb_eq in E. contradiction.
  - cbn [negb] in H. destruct (_public_hub_api_url api_url hub_ip_connect) as [u | e];
      [| discriminate H].
    injection H as <-. exists u. split; [reflexivity|].
    assert (Hu : is_hub_api_url_arg ("--hub-api-url=" ++ u) = true)
      by apply prefix_app.
    cbn [append] in Hu.
    split; [apply last_last|]. split.
    + rewrite filter_app, pop_first_hub_api_url_others. cbn [filter]. rewrite Hu.
      apply app_nil_r.
    + unfold count_hub_api_url_args in *. rewrite filter_app, length_app.
      cbn [filter]. rewrite Hu. cbn [List.length].
      pose proof (pop_first_hub_api_url_count base_args) as Hc.
      unfold count_hub_api_url_args in Hc. rewrite Hc. lia.
Qed.

Lemma get_args_sets_hub_api_url_witness :
  exists u, _public_hub_api_url "http://127.0.0.1:8081/hub/api" "10.0.0.5" = Ret u
    /\ last ["--debug"; "--hub-api-url=http://10.0.0.5:8081/hub/api"] ""
       = "--hub-api-url=" ++ u
    /\ filter (fun a => negb (is_hub_api_url_arg a))
         ["--debug"; "--hub-api-url=http://10.0.0.5:8081/hub/api"]
       = filter (fun a => negb (is_hub_api_url_arg a))
           ["--hub-api-url=http://127.0.0.1:8081/hub/api"; "--debug"]
    /\ count_hub_api_url_args ["--debug"; "--hub-api-url=http://10.0.0.5:8081/hub/api"]
       = Nat.max 1 (count_hub_api_url_args
                      ["--hub-api-url=http://127.0.0.1:8081/hub/api"; "--debug"]).
Proof.
  apply (get_args_sets_hub_api_url ["--hub-api-url=http://127.0.0.1:8081/hub/api"; "--debug"]
           "10.0.0.5" "http://127.0.0.1:8081/hub/api").
  - discriminate.
  - reflexivity.
Defined.

Lemma dict_get_not_key k (d : list (string * pyval)) :
  ~ In k (map fst d) -> dict_get k d = None.
Proof.
  induction d as [| [k0 v0] r IH]; intros Hn; cbn in *; [reflexivity|].
  destruct (String.eqb k k0) eqn:E.
  - apply String.eqb_eq in E. subst k0. exfalso. apply Hn. left. reflexivity.
  - apply IH. intros Hi. apply Hn. right. exact Hi.
Qed.

Lemma dict_get_update k (d e : list (string * pyval)) :
  NoDup (map fst e) ->
  dict_get k (dict_update d e)
  = match dict_get k e with Some v => Some v | None => dict_get k d end.
Proof.
  unfold dict_update. revert d.
  induction e as [| [k0 v0] r IH]; intros d Hnd; cbn in *; [reflexivity|].
  inversion Hnd as [| ? ? Hnotin Hnd']; subst.
  rewrite (IH _ Hnd'), dict_get_set.
  destruct (String.eqb k k0) eqn:E.
  - apply String.eqb_eq in E. subst k0. rewrite (dict_get_not_key k r Hnotin).
    reflexivity.
  - reflexivity.
Qed.

(** In the keyword arguments of the global docker client, [client_kwargs]
    overrides the environment's settings ([kwargs_from_env()]), which
    override the defaults: [version='auto'], and [tls] when [tls_config] is
    set. *)
Theorem client_init_kwargs_precedence (tls_config : list (string * pyval))
  (tls : outcome pyval) (env_kwargs client_kwargs kw : list (string * pyval))
  (k : string)
  (Henv : NoDup (map fst env_kwargs)) (Hck : NoDup (map fst client_kwargs))
  (H : client_init_kwargs tls_config tls env_kwargs client_kwargs = Ret kw) :
  dict_get k kw =
  match dict_get k client_kwargs with
  | Some v => Some v
  | None =>
      match dict_get k env_kwargs with
      | Some v => Some v
      | None =>
          if String.eqb k "version" then Some (PyStr "auto")
          else if String.eqb k "tls" && truthy (PyDict tls_config) then
            match tls with Ret t => Some t | Raise _ => None end
          else None
      end
  end.
Proof.
  unfold client_init_kwargs in H.
  destruct (truthy (PyDict tls_config)) eqn:Ht.
  - destruct tls as [t | e]; [| discriminate H].
    injection H as <-.
    rewrite (dict_get_update _ _ _ Hck).
    destruct (dict_get k client_kwargs); [reflexivity|].
    rewrite (dict_get_update _ _ _ Henv).
    destruct (dict_get k env_kwargs); [reflexivity|].
    cbn. rewrite andb_true_r.
    destruct (String.eqb k "version"); reflexivity.
  - injection H as <-.
    rewrite (dict_get_update _ _ _ Hck).
    destruct (dict_get k client_kwargs); [reflexivity|].
    rewrite (dict_get_update _ _ _ Henv).
    destruct (dict_get k env_kwargs); [reflexivity|].
    cbn [dict_get]. rewrite andb_false_r.
    destruct (String.eqb k "version"); reflexivity.
Qed.

Lemma client_init_kwargs_precedence_witness :
  dict_get "version"
    (dict_update (dict_update [("version", PyStr "auto")]
       [("version", PyStr "1.24"); ("base_url", PyStr "tcp://h:2376")])
       [("version", PyStr "1.30")])
  = match dict_get "version" [("version", PyStr "1.30")] with
    | Some v => Some v
    | None =>
        match dict_get "version"
                [("version", PyStr "1.24"); ("base_url", PyStr "tcp://h:2376")] with
        | Some v => Some v
        | None =>
            if String.eqb "version" "version" then Some (PyStr "auto")
            else if String.eqb "version" "tls" && truthy (PyDict []) then
              match (Ret PyNone : outcome pyval) with Ret t => Some t | Raise _ => None end
            else None
        end
    end.
Proof.
  apply (client_init_kwargs_precedence [] (Ret PyNone)
           [("version", PyStr "1.24"); ("base_url", PyStr "tcp://h:2376")]
           [("version", PyStr "1.30")]).
  - repeat constructor; cbn; intuition discriminate.
  - repeat constructor; cbn; intuition discriminate.
  - reflexivity.
Defined.

(** When [inspect_service] finds the service, [get_service] stores its
    ['ID'] in [service_id] and returns it; when the ['ID'] is missing (or
    not a string) the error propagates out of [get_service] and
    [service_id] keeps its old value. *)
Theorem get_service_found (eng : engine) (sp : spawner) (tr : list event)
  (service : pyval)
  (H : inspect_service eng (service_name sp) = Ret service) :
  get_service eng (mkWorld sp tr) =
  let tr' := (tr ++ [EvInspectService (service_name sp)])%list in
  match getitem service "ID" with
  | Ret (PyStr id) => (Ret service, mkWorld (set_service_id sp id) tr')
  | Ret _ => (Raise TraitError, mkWorld sp tr')
  | Raise e => (Raise e, mkWorld sp tr')
  end.
Proof.
  unfold get_service. unfold_M. cbn. rewrite H.
  destruct (getitem service "ID") as [[] | e] eqn:G; try reflexivity.
  unfold getitem in G.
  destruct service; try (injection G as <-; reflexivity).
  match type of G with
  | context [dict_get "ID" ?d] => destruct (dict_get "ID" d)
  end; [discriminate G | injection G as <-; reflexivity].
Qed.

Lemma get_service_found_witness :
  get_service (engine_existing (PyDict [("ID", PyStr "new1")])) (mkWorld spawner_alice [])
  = (Ret (PyDict [("ID", PyStr "new1")]),
     mkWorld (set_service_id spawner_alice "new1")
       [EvInspectService (service_name spawner_alice)]).
Proof.
  rewrite (get_service_found (engine_existing (PyDict [("ID", PyStr "new1")])) spawner_alice []
             (PyDict [("ID", PyStr "new1")]));
    reflexivity.
Defined.

Lemma trace_two (tr : list event) (a b : event) :
  ((tr ++ [a]) ++ [b])%list = (tr ++ [a; b])%list.
Proof. rewrite <- app_assoc. reflexivity. Qed.

(** [poll] returns [0] (the service has no running task) when the task
    listing is empty, when it fails with 404, and also when the single
    task is an empty dict, which Python treats as false. *)
Theorem poll_no_task (pformat : pyval -> string) (eng : engine) (sp : spawner)
  (tr : list event)
  (H : tasks eng (service_name sp) = Ret []
       \/ tasks eng (service_name sp) = Raise (APIError 404)
       \/ tasks eng (service_name sp) = Ret [PyDict []]) :
  poll pformat eng (mkWorld sp tr)
  = (Ret (PyInt 0),
     mkWorld (self (snd (get_service eng (mkWorld sp tr))))
       (tr ++ [EvInspectService (service_name sp); EvTasks (service_name sp)])).
Proof.
  unfold poll, get_task, get_service_unawaited. unfold_M. cbn -[get_service].
  pose proof (get_service_trace eng sp tr) as Ht.
  destruct (get_service eng (mkWorld sp tr)) as [r0 [s0 t0]]; cbn in Ht |- *; subst t0.
  rewrite trace_two.
  destruct H as [H | [H | H]]; rewrite H; reflexivity.
Qed.

Lemma poll_no_task_witness :
  poll (fun _ => "") engine_not_found (mkWorld spawner_alice [])
  = (Ret (PyInt 0),
     mkWorld (set_service_id spawner_alice "") ([] ++ [EvInspectService (service_name spawner_alice);
                                 EvTasks (service_name spawner_alice)])).
Proof.
  apply poll_no_task. right. left. reflexivity.
Defined.

(** With a single running task ([task['Status']['State'] == 'running'])
    [poll] returns [None]: the server is up. *)
Theorem poll_running (pformat : pyval -> string) (eng : engine) (sp : spawner)
  (tr : list event) (d st : list (string * pyval))
  (H : tasks eng (service_name sp) = Ret [PyDict d])
  (Hs : dict_get "Status" d = Some (PyDict st))
  (Hr : dict_get "State" st = Some (PyStr "running")) :
  poll pformat eng (mkWorld sp tr)
  = (Ret PyNone,
     mkWorld (self (snd (get_service eng (mkWorld sp tr))))
       (tr ++ [EvInspectService (service_name sp); EvTasks (service_name sp)])).
Proof.
  unfold poll, get_task, get_service_unawaited. unfold_M. cbn -[get_service].
  pose proof (get_service_trace eng sp tr) as Ht.
  destruct (get_service eng (mkWorld sp tr)) as [r0 [s0 t0]]; cbn in Ht |- *; subst t0.
  rewrite trace_two, H.
  destruct d as [| kv d']; [discriminate Hs|].
  cbn -[dict_get]. unfold getitem. rewrite Hs, Hr. reflexivity.
Qed.

Lemma poll_running_witness :
  poll (fun _ => "")
    (mkEngine (fun _ => Ret PyNone)
       (fun _ => Ret [PyDict [("Status", PyDict [("State", PyStr "running")])]])
       (fun _ => Ret tt) (fun _ _ => Ret PyNone))
    (mkWorld spawner_alice [])
  = (Ret PyNone,
     mkWorld spawner_alice ([] ++ [EvInspectService (service_name spawner_alice);
                                 EvTasks (service_name spawner_alice)])).
Proof.
  etransitivity;
    [apply (poll_running _ _ _ _ [("Status", PyDict [("State", PyStr "running")])]
              [("State", PyStr "running")]); reflexivity
    | reflexivity].
Defined.

(** With a single task in another state, [poll] returns the task as a
    dict with the same keys, each value rendered by [pformat]. *)
Theorem poll_not_running (pformat : pyval -> string) (eng : engine) (sp : spawner)
  (tr : list event) (d st : list (string * pyval)) (state : string)
  (H : tasks eng (service_name sp) = Ret [PyDict d])
  (Hs : dict_get "Status" d = Some (PyDict st))
  (Hr : dict_get "State" st = Some (PyStr state))
  (Hn : state <> "running") :
  exists d',
    poll pformat eng (mkWorld sp tr)
    = (Ret (PyDict d'),
       mkWorld (self (snd (get_service eng (mkWorld sp tr))))
       (tr ++ [EvInspectService (service_name sp); EvTasks (service_name sp)]))
    /\ map fst d' = map fst d
    /\ forall k, dict_get k d' = option_map (fun v => PyStr (pformat v)) (dict_get k d).
Proof.
  unfold poll, get_task, get_service_unawaited. unfold_M. cbn -[get_service].
  pose proof (get_service_trace eng sp tr) as Ht.
  destruct (get_service eng (mkWorld sp tr)) as [r0 [s0 t0]]; cbn in Ht |- *; subst t0.
  rewrite trace_two, H.
  destruct d as [| kv d0]; [discriminate Hs|].
  cbn -[dict_get]. unfold getitem. rewrite Hs, Hr.
  cbn [py_eq_str]. apply String.eqb_neq in Hn. rewrite Hn.
  eexists. split; [reflexivity|]. split.
  - cbn [map]. f_equal. rewrite map_map. reflexivity.
  - intros k.
    assert (E : forall l : list (string * pyval),
               dict_get k (map (fun kv0 => (fst kv0, PyStr (pformat (snd kv0)))) l)
               = option_map (fun v => PyStr (pformat v)) (dict_get k l)).
    { induction l as [| [k0 v0] r IH]; cbn; [reflexivity|].
      destruct (String.eqb k k0); [reflexivity | exact IH]. }
    specialize (E (kv :: d0)). cbn [map] in E. exact E.
Qed.

Lemma poll_not_running_witness :
  exists d',
    poll (fun _ => "x")
      (mkEngine (fun _ => Ret PyNone)
         (fun _ => Ret [PyDict [("Status", PyDict [("State", PyStr "failed")])]])
         (fun _ => Ret tt) (fun _ _ => Ret PyNone))
      (mkWorld spawner_alice [])
    = (Ret (PyDict d'),
       mkWorld
         (self (snd (get_service
            (mkEngine (fun _ => Ret PyNone)
               (fun _ => Ret [PyDict [("Status", PyDict [("State", PyStr "failed")])]])
               (fun _ => Ret tt) (fun _ _ => Ret PyNone))
            (mkWorld spawner_alice []))))
         ([] ++ [EvInspectService (service_name spawner_alice);
                 EvTasks (service_name spawner_alice)]))
    /\ map fst d' = map fst [("Status", PyDict [("State", PyStr "failed")])]
    /\ forall k, dict_get k d'
         = option_map (fun v => PyStr ((fun _ => "x") v))
             (dict_get k [("Status", PyDict [("State", PyStr "failed")])]).
Proof.
  apply (poll_not_running _ _ _ _ [("Status", PyDict [("State", PyStr "failed")])]
           [("State", PyStr "failed")] "failed"); try reflexivity.
  discriminate.
Defined.

(** A single task without a ['Status'] key makes [poll] raise
    [KeyError('Status')]. *)
Theorem poll_missing_status (pformat : pyval -> string) (eng : engine) (sp : spawner)
  (tr : list event) (kv : string * pyval) (d : list (string * pyval))
  (H : tasks eng (service_name sp) = Ret [PyDict (kv :: d)])
  (Hs : dict_get "Status" (kv :: d) = None) :
  poll pformat eng (mkWorld sp tr)
  = (Raise (KeyError "Status"),
     mkWorld (self (snd (get_service eng (mkWorld sp tr))))
       (tr ++ [EvInspectService (service_name sp); EvTasks (service_name sp)])).
Proof.
  unfold poll, get_task, get_service_unawaited. unfold_M. cbn -[get_service].
  pose proof (get_service_trace eng sp tr) as Ht.
  destruct (get_service eng (mkWorld sp tr)) as [r0 [s0 t0]]; cbn in Ht |- *; subst t0.
  rewrite trace_two, H.
  cbn -[dict_get]. unfold getitem. rewrite Hs. reflexivity.
Qed.

Lemma poll_missing_status_witness :
  poll (fun _ => "")
    (mkEngine (fun _ => Ret PyNone)
       (fun _ => Ret [PyDict [("ID", PyStr "t1")]])
       (fun _ => Ret tt) (fun _ _ => Ret PyNone))
    (mkWorld spawner_alice [])
  = (Raise (KeyError "Status"),
     mkWorld spawner_alice ([] ++ [EvInspectService (service_name spawner_alice);
                                 EvTasks (service_name spawner_alice)])).
Proof.
  etransitivity;
    [apply (poll_missing_status _ _ _ _ ("ID", PyStr "t1") []); reflexivity
    | reflexivity].
Defined.

(** The keyword map of [start]'s create path is the map built from the
    spawner's own settings, overridden by the [extra_create_kwargs] trait,
    overridden in turn by [start]'s [extra_create_kwargs] argument when
    that one is given (an empty one changes nothing). *)
Theorem build_create_kwargs_precedence (c : create_config) (name image : string)
  (extra : option (list (string * pyval))) (kw kw0 : list (string * pyval)) (k : string)
  (Hc : NoDup (map fst (extra_create_kwargs c)))
  (He : match extra with Some e => NoDup (map fst e) | None => True end)
  (H0 : build_create_kwargs (with_extra_create_kwargs c []) name image None = Ret kw0)
  (H : build_create_kwargs c name image extra = Ret kw) :
  dict_get k kw =
  match match extra with Some e => dict_get k e | None => None end with
  | Some v => Some v
  | None =>
      match dict_get k (extra_create_kwargs c) with
      | Some v => Some v
      | None => dict_get k kw0
      end
  end.
Proof.
  unfold build_create_kwargs, with_extra_create_kwargs in *.
  cbn [user_cmd get_env_result volumes read_only_volumes format_volume_name
    volume_driver volume_driver_options base_args hub_ip_connect hub_api_url
    mem_limit mem_guarantee cpu_limit cpu_guarantee network_name
    extra_create_kwargs] in H0.
  destruct (get_env_result c) as [envv | e]; [| discriminate H].
  destruct (mounts _ _ _ _ _) as [ms | e]; [| discriminate H].
  destruct (get_args _ _ _) as [a | e]; [| discriminate H].
  destruct (cpu_nano (cpu_limit c)) as [cl | e]; [| discriminate H].
  destruct (cpu_nano (cpu_guarantee c)) as [cr | e]; [| discriminate H].
  injection H0 as <-. injection H as <-.
  set (base := if truthy (user_cmd c) then _ else _).
  destruct extra as [[| kv r] |].
  - cbn [dict_get truthy]. rewrite (dict_get_update _ _ _ Hc). reflexivity.
  - cbn [truthy]. rewrite (dict_get_update _ _ _ He).
    destruct (dict_get k (kv :: r)); [reflexivity|].
    rewrite (dict_get_update _ _ _ Hc). reflexivity.
  - rewrite (dict_get_update _ _ _ Hc). reflexivity.
Qed.

Lemma build_create_kwargs_precedence_witness :
  exists kw kw0,
    build_create_kwargs (with_extra_create_kwargs cfg_trait_layer []) "jupyter-alice" "img:1"
      None = Ret kw0
    /\ build_create_kwargs cfg_trait_layer "jupyter-alice" "img:1"
         (Some [("image", PyStr "img:2")]) = Ret kw
    /\ dict_get "mem_limit" kw = Some (PyStr "1G")
    /\ dict_get "mem_limit" kw =
       match match Some [("image", PyStr "img:2")] with
             | Some e => dict_get "mem_limit" e | None => None end with
       | Some v => Some v
       | None =>
           match dict_get "mem_limit" (extra_create_kwargs cfg_trait_layer) with
           | Some v => Some v
           | None => dict_get "mem_limit" kw0
           end
       end.
Proof.
  do 2 eexists. split; [reflexivity|]. split; [reflexivity|]. split; [reflexivity|].
  apply (build_create_kwargs_precedence cfg_trait_layer "jupyter-alice" "img:1"
           (Some [("image", PyStr "img:2")])); try reflexivity.
  - repeat constructor; cbn; intuition discriminate.
  - repeat constructor; cbn; intuition discriminate.
Defined.

Lemma bindM_Ret {A B} (m : M A) (k : A -> M B) eng w a w' :
  m eng w = (Ret a, w') -> bindM m k eng w = k a eng w'.
Proof. intros E. unfold bindM. rewrite E. reflexivity. Qed.

Lemma bindM_Raise {A B} (m : M A) (k : A -> M B) eng w e w' :
  m eng w = (Raise e, w') -> bindM m k eng w = (Raise e, w').
Proof. intros E. unfold bindM. rewrite E. reflexivity. Qed.

Ltac bind_step H :=
  match goal with
  | |- context [bindM ?m ?k ?e ?w] => rewrite (bindM_Ret m k e w _ _ H)
  end.

Lemma get_service_gone (eng : engine) (sp : spawner) (tr : list event) (code : Z) :
  inspect_service eng (service_name sp) = Raise (APIError code) ->
  code = 404%Z \/ code = 500%Z ->
  get_service eng (mkWorld sp tr)
  = (Ret PyNone, mkWorld (set_service_id sp "") (tr ++ [EvInspectService (service_name sp)])).
Proof.
  intros Hi Hcode. unfold get_service. unfold_M. cbn. rewrite Hi.
  destruct Hcode as [-> | ->]; reflexivity.
Qed.




Lemma get_service_ok (eng : engine) (sp : spawner) (tr : list event)
  (service : pyval) (id : string) :
  inspect_service eng (service_name sp) = Ret service ->
  getitem service "ID" = Ret (PyStr id) ->
  get_service eng (mkWorld sp tr)
  = (Ret service, mkWorld (set_service_id sp id) (tr ++ [EvInspectService (service_name sp)])).
Proof.
  intros Hi Hid. unfold get_service. unfold_M. cbn. rewrite Hi, Hid. reflexivity.
Qed.



Lemma get_service_on_found (eng : engine) (sp : spawner) (tr : list event)
  (service : pyval) :
  inspect_service eng (service_name sp) = Ret service ->
  (exists id, getitem service "ID" = Ret (PyStr id))
  \/ (exists e, get_service eng (mkWorld sp tr)
                = (Raise e, mkWorld sp (tr ++ [EvInspectService (service_name sp)]))).
Proof.
  intros Hi.
  destruct (getitem service "ID") as [[| b | z | f | s | l | d |] | e] eqn:Hid;
    try (left; eexists; reflexivity); right;
    unfold get_service; unfold_M; cbn; rewrite Hi, Hid;
    try (eexists; reflexivity).
  unfold getitem in Hid. exists e.
  destruct service; try (injection Hid as <-; reflexivity).
  match type of Hid with
  | context [dict_get "ID" ?d] => destruct (dict_get "ID" d)
  end; [discriminate Hid | injection Hid as <-; reflexivity].
Qed.

Lemma reuse_service_trace (service : pyval) (eng : engine) (w : world) :
  trace (snd (reuse_service service eng w)) = trace w.
Proof.
  unfold reuse_service. unfold_M. cbn.
  destruct (getitem service "Config") as [cfg | e]; [| reflexivity].
  destruct (getitem cfg "Env") as [envv | e]; [| reflexivity].
  destruct (iter_env envv) as [[t |] | e]; reflexivity.
Qed.

(** Without [remove_services], an existing service is never removed or
    recreated: whatever the reuse path does, the only engine call of
    [start] is the inspection. *)
Theorem start_keeps_existing (image_arg : option string)
  (extra_arg : option (list (string * pyval))) (eng : engine) (sp : spawner)
  (tr : list event) (service : pyval)
  (Hi : inspect_service eng (service_name sp) = Ret service)
  (Hrm : remove_services sp = false) :
  trace (snd (start image_arg extra_arg eng (mkWorld sp tr)))
  = (tr ++ [EvInspectService (service_name sp)])%list.
Proof.
  unfold start.
  destruct (get_service_on_found eng sp tr service Hi) as [[s Hid] | [e Hg]].
  2: { rewrite (bindM_Raise _ _ _ _ _ _ Hg). reflexivity. }
  bind_step (get_service_ok eng sp tr service s Hi Hid).
  set (sp1 := set_service_id sp s).
  set (tr1 := (tr ++ [EvInspectService (service_name sp)])%list).
  bind_step (@eq_refl _ (Ret sp1, mkWorld sp1 tr1)).
  assert (Hrm1 : remove_services sp1 = false) by exact Hrm.
  rewrite Hrm1, andb_false_r.
  bind_step (@eq_refl _ (Ret service, mkWorld sp1 tr1)).
  assert (Hn : is_none service = false).
  { destruct service; try discriminate Hid; reflexivity. }
  rewrite Hn. unfold bindM at 1.
  pose proof (reuse_service_trace service eng (mkWorld sp1 tr1)) as E.
  destruct (reuse_service service eng (mkWorld sp1 tr1)) as [[] w'] eqn:R;
    cbn in E |- *; exact E.
Qed.

Lemma start_keeps_existing_witness :
  trace (snd (start None None (engine_existing service_inspect_response)
                (mkWorld spawner_alice [])))
  = ([] ++ [EvInspectService (service_name spawner_alice)])%list.
Proof.
  apply (start_keeps_existing None None _ _ _ service_inspect_response); reflexivity.
Defined.

(** On the create path, a non-empty volume configuration makes [start]
    raise [InvalidArgument] (from [self.mounts]) before any create call,
    when [get_env()] and the binds dict succeed: the engine sees only the
    inspection, and [service_id] is left as [get_service] cleared it. *)
Theorem start_volumes_invalid_argument (image_arg : option string)
  (extra_arg : option (list (string * pyval))) (eng : engine) (sp : spawner)
  (tr : list event) (code : Z)
  (Hi : inspect_service eng (service_name sp) = Raise (APIError code))
  (Hcode : code = 404%Z \/ code = 500%Z)
  (Henv : exists v, get_env_result (config sp) = Ret v)
  (Hb : exists b, volume_binds (format_volume_name (config sp)) (volumes (config sp))
                    (read_only_volumes (config sp)) = Ret b)
  (Hne : (volumes (config sp) ++ read_only_volumes (config sp))%list <> []) :
  start image_arg extra_arg eng (mkWorld sp tr)
  = (Raise InvalidArgument,
     mkWorld (set_service_id sp "") (tr ++ [EvInspectService (service_name sp)])).
Proof.
  destruct Henv as [v Hv]. destruct Hb as [b Hbd].
  assert (Hk : forall nm img, build_create_kwargs (config sp) nm img extra_arg
                              = Raise InvalidArgument).
  { intros nm img. unfold build_create_kwargs. rewrite Hv, mounts_result, Hbd.
    destruct (volumes (config sp) ++ read_only_volumes (config sp))%list;
      [contradiction | reflexivity]. }
  unfold start.
  bind_step (get_service_gone eng sp tr code Hi Hcode).
  set (w1 := mkWorld (set_service_id sp "") (tr ++ [EvInspectService (service_name sp)])).
  bind_step (@eq_refl _ (Ret (set_service_id sp ""), w1)).
  bind_step (@eq_refl _ (Ret PyNone, w1)).
  cbn [is_none].
  assert (Hc : create_new_service image_arg extra_arg eng w1 = (Raise InvalidArgument, w1)).
  { unfold create_new_service.
    bind_step (@eq_refl _ (Ret (set_service_id sp ""), w1)).
    apply bindM_Raise. cbn [config set_service_id lift]. rewrite Hk. reflexivity. }
  rewrite (bindM_Raise _ _ _ _ _ _ Hc). reflexivity.
Qed.

Lemma start_volumes_invalid_argument_witness :
  start None None engine_not_found (mkWorld spawner_volumes [])
  = (Raise InvalidArgument,
     mkWorld (set_service_id spawner_volumes "")
       ([] ++ [EvInspectService (service_name spawner_volumes)])).
Proof.
  apply (start_volumes_invalid_argument None None engine_not_found spawner_volumes []
           404%Z).
  - reflexivity.
  - left. reflexivity.
  - eexists. reflexivity.
  - eexists. reflexivity.
  - discriminate.
Defined.

Lemma volumes_to_binds_app (fmt : string -> outcome string) vs1 vs2 binds m0 :
  _volumes_to_binds fmt (vs1 ++ vs2) binds m0
  = match _volumes_to_binds fmt vs1 binds m0 with
    | Ret b => _volumes_to_binds fmt vs2 b m0
    | Raise e => Raise e
    end.
Proof.
  revert binds. induction vs1 as [| [k v] r IH]; intros binds; cbn; [reflexivity|].
  destruct (match v with
            | VolStr p => Ret (m0, p)
            | VolDict d => _ end) as [[m p] | e]; [| reflexivity].
  destruct (fmt p) as [fp | e]; [| reflexivity].
  destruct (fmt k) as [fk | e]; [apply IH | reflexivity].
Qed.

(** With a naming callable that never raises, the only error of the loop
    is the [KeyError('bind')] of a dict volume without ['bind']. *)
Lemma volumes_to_binds_error (fmt : string -> outcome string) vs binds m0 e :
  (forall s, exists t, fmt s = Ret t) ->
  _volumes_to_binds fmt vs binds m0 = Raise e -> e = KeyError "bind".
Proof.
  intros Hf. revert binds. induction vs as [| [k v] r IH]; intros binds H; cbn in H;
    [discriminate H|].
  destruct (match v with
            | VolStr p => Ret (m0, p)
            | VolDict d => _ end) as [[m p] | e'] eqn:Emv.
  - destruct (Hf p) as [fp Ep]. destruct (Hf k) as [fk Ek].
    rewrite Ep, Ek in H. exact (IH _ H).
  - injection H as <-. destruct v as [p | d]; [discriminate Emv|].
    destruct (dict_get "bind" d); [discriminate Emv | injection Emv as <-; reflexivity].
Qed.

Lemma volumes_to_binds_missing_bind (fmt : string -> outcome string) vs binds m0 k d :
  (forall s, exists t, fmt s = Ret t) ->
  In (k, VolDict d) vs -> dict_get "bind" d = None ->
  _volumes_to_binds fmt vs binds m0 = Raise (KeyError "bind").
Proof.
  intros Hf Hin Hd. destruct (in_split _ _ Hin) as [l1 [l2 ->]].
  rewrite volumes_to_binds_app.
  destruct (_volumes_to_binds fmt l1 binds m0) as [b | e] eqn:E.
  - cbn. rewrite Hd. reflexivity.
  - rewrite (volumes_to_binds_error _ _ _ _ _ Hf E). reflexivity.
Qed.

(** With a naming callable that never raises, a volume given as a dict
    without a ['bind'] entry, in [volumes] or in [read_only_volumes], makes
    [mounts] raise [KeyError('bind')]. *)
Theorem mounts_missing_bind (fmt : string -> outcome string)
  (volumes read_only_volumes : list (string * volspec)) (drv : string)
  (opts : list (string * pyval)) (k : string) (d : list (string * string))
  (Hf : forall s, exists t, fmt s = Ret t)
  (Hin : In (k, VolDict d) (volumes ++ read_only_volumes))
  (Hd : dict_get "bind" d = None) :
  mounts fmt volumes read_only_volumes drv opts = Raise (KeyError "bind").
Proof.
  unfold mounts, volume_binds.
  apply in_app_or in Hin as [Hin | Hin].
  - rewrite (volumes_to_binds_missing_bind fmt _ [] "rw" k d Hf Hin Hd). reflexivity.
  - destruct (_volumes_to_binds fmt volumes [] "rw") as [b | e] eqn:E.
    + rewrite (volumes_to_binds_missing_bind fmt _ b "ro" k d Hf Hin Hd). reflexivity.
    + rewrite (volumes_to_binds_error _ _ _ _ _ Hf E). reflexivity.
Qed.

Lemma mounts_missing_bind_witness :
  mounts (fun s => Ret s) [("/srv/h1", VolStr "/z")]
    [("/srv/h2", VolDict [("mode", "ro")])] "" [] = Raise (KeyError "bind").
Proof.
  apply (mounts_missing_bind _ _ _ _ _ "/srv/h2" [("mode", "ro")]).
  - intros s. exists s. reflexivity.
  - cbn. right. left. reflexivity.
  - reflexivity.
Defined.

Lemma dict_get_set_any {V} (k k' : string) (v : V) (d : list (string * V)) :
  dict_get k (dict_set k' v d) = if String.eqb k k' then Some v else dict_get k d.
Proof.
  induction d as [| [k0 v0] r IH]; cbn.
  - reflexivity.
  - destruct (String.eqb k' k0) eqn:E1.
    + apply String.eqb_eq in E1; subst k0. cbn.
      destruct (String.eqb k k'); reflexivity.
    + cbn. rewrite IH.
      destruct (String.eqb k k0) eqn:E2; [|reflexivity].
      apply String.eqb_eq in E2; subst k0.
      destruct (String.eqb k k') eqn:E3; [|reflexivity].
      apply String.eqb_eq in E3; subst k'.
      rewrite String.eqb_refl in E1. discriminate E1.
Qed.

Lemma volumes_to_binds_keeps (fmt : string -> outcome string) vs binds m0 binds' key :
  (forall k2 v2 fk2, In (k2, v2) vs -> fmt k2 = Ret fk2 -> fk2 <> key) ->
  _volumes_to_binds fmt vs binds m0 = Ret binds' ->
  dict_get key binds' = dict_get key binds.
Proof.
  revert binds. induction vs as [| [k v] r IH]; intros binds Hk H; cbn in H.
  - injection H as <-. reflexivity.
  - assert (Hr : forall k2 v2 fk2, In (k2, v2) r -> fmt k2 = Ret fk2 -> fk2 <> key)
      by (intros k2 v2 fk2 Hi; apply (Hk k2 v2); right; exact Hi).
    destruct (match v with
              | VolStr p => Ret (m0, p)
              | VolDict d => _ end) as [[m p] | e]; [| discriminate H].
    destruct (fmt p) as [fp | e]; [| discriminate H].
    destruct (fmt k) as [fk | e] eqn:Ek; [| discriminate H].
    assert (Hne : String.eqb key fk = false).
    { apply String.eqb_neq. intros E. apply (Hk k v fk); [left; reflexivity | exact Ek | symmetry; exact E]. }
    rewrite (IH _ Hr H), dict_get_set_any, Hne. reflexivity.
Qed.

(** A host path whose last entry in [read_only_volumes] (compared after
    [format_volume_name]) is a plain container path gets, in
    [volume_binds], the formatted container path in mode ['ro'], whatever
    [volumes] says about it. *)
Theorem volume_binds_read_only_last_entry (fmt : string -> outcome string)
  (volumes ro1 ro2 : list (string * volspec)) (k p fk fp : string)
  (binds : list (string * bind_entry))
  (Hk : fmt k = Ret fk) (Hp : fmt p = Ret fp)
  (Hlast : forall k2 v2 fk2, In (k2, v2) ro2 -> fmt k2 = Ret fk2 -> fk2 <> fk)
  (H : volume_binds fmt volumes (ro1 ++ (k, VolStr p) :: ro2) = Ret binds) :
  dict_get fk binds = Some (mkBind fp "ro").
Proof.
  unfold volume_binds in H.
  destruct (_volumes_to_binds fmt volumes [] "rw") as [b | e]; [| discriminate H].
  rewrite volumes_to_binds_app in H.
  destruct (_volumes_to_binds fmt ro1 b "ro") as [b1 | e]; [| discriminate H].
  cbn [_volumes_to_binds] in H. rewrite Hp, Hk in H.
  rewrite (volumes_to_binds_keeps fmt ro2 _ "ro" binds fk Hlast H).
  rewrite dict_get_set_any, String.eqb_refl. reflexivity.
Qed.

Lemma volume_binds_read_only_last_entry_witness :
  dict_get "/srv/h1"
    (match volume_binds (fun s => Ret s) [("/srv/h1", VolStr "/a")]
             [("/srv/h1", VolStr "/z")] with
     | Ret b => b | Raise _ => [] end)
  = Some (mkBind "/z" "ro").
Proof.
  apply (volume_binds_read_only_last_entry (fun s => Ret s) [("/srv/h1", VolStr "/a")] []
           [] "/srv/h1" "/z" "/srv/h1" "/z").
  - reflexivity.
  - reflexivity.
  - intros k2 v2 fk2 [].
  - reflexivity.
Defined.

Lemma string_leb_total (a b : string) :
  String.leb a b = false -> String.leb b a = true.
Proof.
  unfold String.leb. rewrite (String.compare_antisym b a).
  destruct (String.compare a b); cbn; congruence.
Qed.

Lemma insert_sorted_Sorted (s : string) (l : list string) :
  Sorted (fun a b => String.leb a b = true) l ->
  Sorted (fun a b => String.leb a b = true) (insert_sorted s l).
Proof.
  induction l as [| x r IH]; intros H; cbn.
  - repeat constructor.
  - destruct (String.leb s x) eqn:E.
    + constructor; [exact H | constructor; exact E].
    + inversion H as [| ? ? Hr Hx]; subst.
      constructor; [exact (IH Hr)|].
      destruct r as [| y r']; cbn.
      * constructor. apply string_leb_total. exact E.
      * destruct (String.leb s y).
        -- constructor. apply string_leb_total. exact E.
        -- inversion Hx; subst. constructor. assumption.
Qed.

Lemma insert_sorted_perm (s : string) (l : list string) :
  Permutation (insert_sorted s l) (s :: l).
Proof.
  induction l as [| x r IH]; cbn; [reflexivity|].
  destruct (String.leb s x); [reflexivity|].
  rewrite IH. apply perm_swap.
Qed.

(** [volume_mount_points] fails exactly when [volume_binds] does; otherwise
    it lists the container paths of the binds (with their multiplicities),
    in sorted order. *)
Theorem volume_mount_points_sorted_binds (fmt : string -> outcome string)
  (volumes read_only_volumes : list (string * volspec)) :
  match volume_binds fmt volumes read_only_volumes with
  | Raise e => volume_mount_points fmt volumes read_only_volumes = Raise e
  | Ret binds =>
      exists pts, volume_mount_points fmt volumes read_only_volumes = Ret pts
        /\ Sorted (fun a b => String.leb a b = true) pts
        /\ Permutation pts (map (fun hv => bind (snd hv)) binds)
  end.
Proof.
  unfold volume_mount_points.
  destruct (volume_binds fmt volumes read_only_volumes) as [b | e]; [| reflexivity].
  eexists. split; [reflexivity|].
  generalize (map (fun hv => bind (snd hv)) b) as l.
  induction l as [| x r [IHs IHp]]; cbn; [split; constructor|].
  split.
  - apply insert_sorted_Sorted. exact IHs.
  - rewrite insert_sorted_perm. constructor. exact IHp.
Qed.

(** A user name made only of the safe characters [A-Za-z0-9-] is its own
    escaped name. *)
Theorem escape_safe_name_unchanged (name : list Byte.byte)
  (Hsafe : forallb _service_safe_byte name = true) :
  escaped_name name = string_of_list_ascii (map ascii_of_byte name).
Proof.
  unfold escaped_name, escape. f_equal.
  induction name as [| b r IH]; cbn in *; [reflexivity|].
  apply andb_true_iff in Hsafe as [Hb Hr].
  unfold escape_byte. rewrite Hb. cbn. f_equal. exact (IH Hr).
Qed.

Lemma escape_safe_name_unchanged_witness :
  escaped_name (list_byte_of_string "alice-42")
  = string_of_list_ascii (map ascii_of_byte (list_byte_of_string "alice-42")).
Proof. apply escape_safe_name_unchanged. reflexivity. Defined.
